(** * A recursive ray tracer (main3.py): shallow embedding and verification

    The program is a Whitted-style ray tracer over spheres and point lights.
    Its numbers are Python floats, that is IEEE-754 binary64 values, and the
    embedding keeps them as such: the kernel's primitive floats compute the
    same sums, products, quotients and square roots bit for bit.  What Python
    adds on top of IEEE arithmetic (exceptions on a zero divisor, on a
    negative square root, on an overflowing power; [max] and [min] that keep
    their first argument on ties and on NaN) is written out in module [Py].
    The two functions that the interpreter delegates to the C library on
    their general domain, [pow] and [tan], are the fields of the class
    [Libm]: the theorems hold for any such library, and the runs on concrete
    inputs at the end use the stand-in [unit_libm].  Console output (the
    progress lines, the message of the [except] handler) is not modelled.

    Integer literals of the source ([0], [1], [2], [4], [255]) denote the
    float of the same value, which is what Python makes of them in the first
    mixed operation; recursion depths are integers. *)

From Stdlib Require Import ZArith List Bool Floats Lia.
From stdpp Require Import base list gmap.

Set Warnings "-inexact-float".

(** ** Python's exceptions *)

Inductive exn : Set :=
| ValueError
| ZeroDivisionError
| OverflowError
| TypeError
| AttributeError
| IndexError
| RecursionError.

Inductive result (A : Type) : Type :=
| Ok (a : A)
| Raise (e : exn).

Arguments Ok {A} a.
Arguments Raise {A} e.

Definition bind {A B : Type} (m : result A) (k : A -> result B) : result B :=
  match m with
  | Ok a => k a
  | Raise e => Raise e
  end.

Definition exn_eqb (e1 e2 : exn) : bool :=
  match e1, e2 with
  | ValueError, ValueError
  | ZeroDivisionError, ZeroDivisionError
  | OverflowError, OverflowError
  | TypeError, TypeError
  | AttributeError, AttributeError
  | IndexError, IndexError
  | RecursionError, RecursionError => true
  | _, _ => false
  end.

(** [try: body / except e: handler]: only the named exception is caught. *)
Definition try_except {A : Type} (body : result A) (e : exn) (handler : result A) : result A :=
  match body with
  | Ok a => Ok a
  | Raise e' => if exn_eqb e' e then handler else Raise e'
  end.

Definition is_ok {A : Type} (m : result A) : bool :=
  match m with
  | Ok _ => true
  | Raise _ => false
  end.

Notation "x <- e ;; k" := (bind e (fun x => k))
  (at level 62, e at next level, right associativity).

(** A [for] loop whose body may raise: the first exception ends it. *)
Fixpoint for_each {S A : Type} (body : S -> A -> result S) (l : list A) (s : S) : result S :=
  match l with
  | [] => Ok s
  | a :: l' => s' <- body s a ;; for_each body l' s'
  end.

(** The C library behind [float.__pow__] and [math.tan]. *)
Class Libm : Type := {
  libm_pow : float -> float -> float;
  libm_tan : float -> float
}.

(** ** Python's float primitives *)

Module Py.

Local Open Scope float_scope.

(** [a / b] on floats: Python refuses a zero divisor (of either sign). *)
Definition div (a b : float) : result float :=
  if b =? 0 then Raise ZeroDivisionError else Ok (a / b).

(** [math.sqrt]: a NaN result from a non-NaN argument is a domain error. *)
Definition sqrt (a : float) : result float :=
  let r := PrimFloat.sqrt a in
  if is_nan r && negb (is_nan a) then Raise ValueError else Ok r.

(** [max(a, b)] and [min(a, b)] keep [a] unless [b] is strictly better. *)
Definition max (a b : float) : float := if a <? b then b else a.
Definition min (a b : float) : float := if b <? a then b else a.

(** The integer a finite float denotes when it denotes one (sign dropped). *)
Definition integral_magnitude (f : float) : option Z :=
  match Prim2SF f with
  | S754_zero _ => Some 0%Z
  | S754_finite _ m e =>
      if (0 <=? e)%Z then Some (Z.pos m * 2 ^ e)%Z
      else if (Z.pos m mod 2 ^ (- e) =? 0)%Z then Some (Z.pos m / 2 ^ (- e))%Z
      else None
  | _ => None
  end.

Definition is_integer (f : float) : bool :=
  match integral_magnitude f with
  | Some _ => true
  | None => false
  end.

Definition is_odd_integer (f : float) : bool :=
  match integral_magnitude f with
  | Some n => Z.odd n
  | None => false
  end.

(** [copysign(0.0, a)] *)
Definition signed_zero (a : float) : float :=
  match Prim2SF a with
  | S754_zero true | S754_infinity true | S754_finite true _ _ => (-0)
  | _ => 0
  end.

(** [iv ** iw] on floats, after CPython's [float_pow]: the special values
    are settled by the interpreter; the C library is asked only for a finite
    positive base other than 1 and a finite nonzero exponent, and an infinite
    answer there is an [OverflowError] (an underflow is not an error).  A
    negative base with a fractional
    exponent gives a complex number, which no operation of this program
    accepts (the comparison, [math.sqrt] and [Vector3.__mul__] that would
    receive it all raise [TypeError]); the model raises it at once. *)
Definition pow `{Libm} (iv iw : float) : result float :=
  if iw =? 0 then Ok 1
  else if is_nan iv then Ok iv
  else if is_nan iw then Ok (if iv =? 1 then 1 else iw)
  else if is_infinity iw then
    (let av := abs iv in
     if av =? 1 then Ok 1
     else if Bool.eqb (0 <? iw) (1 <? av) then Ok (abs iw)
     else Ok 0)
  else if is_infinity iv then
    (let odd := is_odd_integer iw in
     if 0 <? iw then Ok (if odd then iv else abs iv)
     else Ok (if odd then signed_zero iv else 0))
  else if iv =? 0 then
    (if iw <? 0 then Raise ZeroDivisionError
     else Ok (if is_odd_integer iw then iv else 0))
  else if (iv <? 0) && negb (is_integer iw) then Raise TypeError
  else
    (let negate := (iv <? 0) && is_odd_integer iw in
     let av := if iv <? 0 then - iv else iv in
     if av =? 1 then Ok (if negate then -1 else 1)
     else
       let ix := libm_pow av iw in
       if is_infinity ix then Raise OverflowError
       else Ok (if negate then - ix else ix)).

(** [math.tan]: a NaN or infinite result from a finite argument is an error. *)
Definition tan `{Libm} (a : float) : result float :=
  let r := libm_tan a in
  if is_nan r && negb (is_nan a) then Raise ValueError
  else if is_infinity r && is_finite a then Raise ValueError
  else Ok r.

(** [math.radians]: multiplication by the double nearest to pi / 180. *)
Definition radians (a : float) : float :=
  a * (0x1.921fb54442d18p+1 / 180).

(** An integer used where a float is expected: the nearest double, ties to
    even; integers beyond the doubles raise. *)
Definition float_of_int (n : Z) : result float :=
  let f := SF2Prim (binary_normalize prec emax n 0 false) in
  if is_infinity f then Raise OverflowError else Ok f.

(** Truncation toward zero of a finite float. *)
Definition trunc (f : float) : Z :=
  match Prim2SF f with
  | S754_finite s m e =>
      let q := if (0 <=? e)%Z then (Z.pos m * 2 ^ e)%Z else (Z.pos m / 2 ^ (- e))%Z in
      if s then (- q)%Z else q
  | _ => 0%Z
  end.

(** [numpy.uint8] of a float: the truncated value as an unsigned byte. *)
Definition uint8 (f : float) : Z := (trunc f mod 256)%Z.

End Py.

(** ** Vector3 *)

Module Vector3.

Record t : Set := mk { x : float; y : float; z : float }.

(** What [__mul__] may receive on its right: it dispatches on the run-time
    type of the operand. *)
Inductive operand : Set :=
| Vec (v : t)
| Num (s : float)
| Other.

Section Methods.
Context `{Libm}.
Local Open Scope float_scope.

Definition __add__ (self other : t) : t :=
  let x_comp := x self + x other in
  let y_comp := y self + y other in
  let z_comp := z self + z other in
  mk x_comp y_comp z_comp.

Definition __neg__ (self : t) : t :=
  mk (- x self) (- y self) (- z self).

Definition __sub__ (self other : t) : t :=
  let x_comp := x self - x other in
  let y_comp := y self - y other in
  let z_comp := z self - z other in
  mk x_comp y_comp z_comp.

Definition __mul__ (self : t) (other : operand) : result t :=
  match other with
  | Vec o => Ok (mk (x self * x o) (y self * y o) (z self * z o))
  | Num s => Ok (mk (x self * s) (y self * s) (z self * s))
  | Other => Raise TypeError
  end.

(** [__rmul__ = __mul__]: [s * v] ends in [v.__mul__(s)]. *)
Definition __rmul__ := __mul__.

Definition __truediv__ (self : t) (scalar : float) : result t :=
  if scalar =? 0 then Raise ValueError
  else
    qx <- Py.div (x self) scalar ;;
    qy <- Py.div (y self) scalar ;;
    qz <- Py.div (z self) scalar ;;
    Ok (mk qx qy qz).

(** [__itruediv__] stores the quotients in [self] and returns [self]: at the
    level of values, the new contents of the receiver (module
    [VectorObject] has the store). *)
Definition __itruediv__ (self : t) (scalar : float) : result t :=
  if scalar =? 0 then Raise ValueError
  else
    qx <- Py.div (x self) scalar ;;
    qy <- Py.div (y self) scalar ;;
    qz <- Py.div (z self) scalar ;;
    Ok (mk qx qy qz).

Definition dot (self other : t) : float :=
  let x_comp := x self * x other in
  let y_comp := y self * y other in
  let z_comp := z self * z other in
  x_comp + y_comp + z_comp.

Definition cross (self other : t) : t :=
  let x_comp := (y self * z other) - (z self * y other) in
  let y_comp := - (x self * z other) + (z self * x other) in
  let z_comp := (x self * y other) - (y self * x other) in
  mk x_comp y_comp z_comp.

Definition length (self : t) : result float :=
  x2 <- Py.pow (x self) 2 ;;
  y2 <- Py.pow (y self) 2 ;;
  z2 <- Py.pow (z self) 2 ;;
  Py.sqrt (x2 + y2 + z2).

Definition normalize (self : t) : result t :=
  len <- length self ;;
  if negb (len =? 0) then
    nx <- Py.div (x self) len ;;
    ny <- Py.div (y self) len ;;
    nz <- Py.div (z self) len ;;
    Ok (mk nx ny nz)
  else Ok (mk 0 0 0).

Definition reflect (self normal : t) : result t :=
  step <- __rmul__ normal (Num (2 * dot self normal)) ;;
  Ok (__sub__ self step).

Definition rgb (self : t) : Z * Z * Z :=
  let r := Py.max 0 (Py.min 1 (x self)) in
  let g := Py.max 0 (Py.min 1 (y self)) in
  let b := Py.max 0 (Py.min 1 (z self)) in
  (Py.uint8 (r * 255), Py.uint8 (g * 255), Py.uint8 (b * 255)).

End Methods.

End Vector3.

(** ** Ray (its data and [point]; its [color] method is module [Shader]) *)

Module Ray.

Record t : Set := mk { origin : Vector3.t; direction : Vector3.t }.

Definition point (self : t) (t : float) : result Vector3.t :=
  step <- Vector3.__mul__ (direction self) (Vector3.Num t) ;;
  Ok (Vector3.__add__ (origin self) step).

End Ray.

(** ** Material and Light *)

Module Material.

Record t : Set := mk {
  diffuse_color : Vector3.t;
  specular_color : Vector3.t;
  ambient_color : Vector3.t;
  shininess : float;
  reflectivity : float;
  transparency : float;
  refractive_index : float;
  emission_color : float * float * float
}.

(** [Material.__init__]: an absent ambient colour falls back to the diffuse
    one (a [Vector3] object is always truthy). *)
Definition __init__ (diffuse_color specular_color : Vector3.t)
    (ambient_color : option Vector3.t) (shininess reflectivity transparency
    refractive_index : float) (emission_color : float * float * float) : t :=
  mk diffuse_color specular_color
     (match ambient_color with Some c => c | None => diffuse_color end)
     shininess reflectivity transparency refractive_index emission_color.

End Material.

Module Light.

Record t : Set := mk { position : Vector3.t; color : Vector3.t; intensity : float }.

End Light.

(** ** Sphere *)

Module Sphere.

Record t : Set := mk { center : Vector3.t; radius : float; material : Material.t }.

Section Methods.
Context `{Libm}.
Local Open Scope float_scope.

(** The coefficients of the quadratic in the order the source computes them
    and its discriminant [b ** 2 - 4 * a * c]. *)
Definition coeff_a (ray : Ray.t) : float :=
  Vector3.dot (Ray.direction ray) (Ray.direction ray).

Definition coeff_b (self : t) (ray : Ray.t) : float :=
  2 * Vector3.dot (Vector3.__sub__ (Ray.origin ray) (center self)) (Ray.direction ray).

Definition coeff_c (self : t) (ray : Ray.t) : result float :=
  let oc := Vector3.__sub__ (Ray.origin ray) (center self) in
  r2 <- Py.pow (radius self) 2 ;;
  Ok (Vector3.dot oc oc - r2).

Definition discriminant (self : t) (ray : Ray.t) : result float :=
  c <- coeff_c self ray ;;
  b2 <- Py.pow (coeff_b self ray) 2 ;;
  Ok (b2 - 4 * coeff_a ray * c).

(** The two roots [(-b - sqrt d) / (2 * a)] and [(-b + sqrt d) / (2 * a)]. *)
Definition roots (a b d : float) : result (float * float) :=
  sq <- Py.sqrt d ;;
  t1 <- Py.div (- b - sq) (2 * a) ;;
  t2 <- Py.div (- b + sq) (2 * a) ;;
  Ok (t1, t2).

Definition intersect (self : t) (ray : Ray.t) : result (option float) :=
  let oc := Vector3.__sub__ (Ray.origin ray) (center self) in
  let a := Vector3.dot (Ray.direction ray) (Ray.direction ray) in
  let b := 2 * Vector3.dot oc (Ray.direction ray) in
  r2 <- Py.pow (radius self) 2 ;;
  let c := Vector3.dot oc oc - r2 in
  b2 <- Py.pow b 2 ;;
  let d := b2 - 4 * a * c in
  if d <? 0 then Ok None
  else
    sq <- Py.sqrt d ;;
    t1 <- Py.div (- b - sq) (2 * a) ;;
    t2 <- Py.div (- b + sq) (2 * a) ;;
    if 0.001 <? t1 then Ok (Some t1)
    else if 0.001 <? t2 then Ok (Some t2)
    else Ok None.

Definition normal_vector (self : t) (point : Vector3.t) : result Vector3.t :=
  Vector3.normalize (Vector3.__sub__ point (center self)).

End Methods.

End Sphere.

(** ** Scene *)

Module Scene.

Record t : Set := mk { lighting : list Light.t; objects : list Sphere.t }.

Definition add_object (self : t) (obj : Sphere.t) : t :=
  mk (lighting self) (objects self ++ [obj]).

Definition add_lighting (self : t) (light : Light.t) : t :=
  mk (lighting self ++ [light]) (objects self).

Section Methods.
Context `{Libm}.
Local Open Scope float_scope.

(** One turn of the scan: [closest_t] and [closest_obj] are the loop state. *)
Definition hit_step (ray : Ray.t) (st : float * option Sphere.t) (obj : Sphere.t)
    : result (float * option Sphere.t) :=
  t <- Sphere.intersect obj ray ;;
  match t with
  | Some t' => if t' <? fst st then Ok (t', Some obj) else Ok st
  | None => Ok st
  end.

Definition hit (self : t) (ray : Ray.t) : result (option (Vector3.t * Sphere.t)) :=
  st <- for_each (hit_step ray) (objects self) (infinity, None) ;;
  match snd st with
  | Some closest_obj =>
      hit_point <- Ray.point ray (fst st) ;;
      Ok (Some (hit_point, closest_obj))
  | None => Ok None
  end.

End Methods.

End Scene.

(** ** Shader: [Ray.color] and [Ray.mix_color] *)

Module Shader.

Section Methods.
Context `{Libm}.
Local Open Scope float_scope.

Definition epsilon : float := 0.01.

(** The default of the keyword argument [max_depth]. *)
Definition default_max_depth : Z := 3.

(** The colour returned when nothing is hit or the depth bound is reached. *)
Definition background (self : Ray.t) : result Vector3.t :=
  let alpha := 0.5 * (Vector3.y (Ray.direction self) + 1) in
  white <- Vector3.__mul__ (Vector3.mk 1 1 1) (Vector3.Num (1 - alpha)) ;;
  blue <- Vector3.__mul__ (Vector3.mk 0.5 0.7 1.0) (Vector3.Num alpha) ;;
  Ok (Vector3.__add__ white blue).

Definition mix_color (a b : Vector3.t) (t : float) : result Vector3.t :=
  left <- Vector3.__rmul__ a (Vector3.Num (1 - t)) ;;
  right <- Vector3.__rmul__ b (Vector3.Num t) ;;
  Ok (Vector3.__add__ left right).

(** The [+] of a [Vector3] receiver. *)
Definition vector_plus (a b : Vector3.t) : result Vector3.t :=
  Ok (Vector3.__add__ a b).

Section Accumulation.

(** The body of [for light in scene.lighting].  The [+] of the guarded
    statement [color = color + diffuse + specular] is resolved at run time;
    the loop is written over it, and [color] below runs it with
    [vector_plus].  The handler only prints, and leaves [color] as it was. *)
Variable plus : Vector3.t -> Vector3.t -> result Vector3.t.

Definition light_step (hit_point normal view_dir : Vector3.t) (obj : Sphere.t)
    (color : Vector3.t) (light : Light.t) : result Vector3.t :=
  light_dir <- Vector3.normalize (Vector3.__sub__ (Light.position light) hit_point) ;;
  let i_diff := Py.max (Vector3.dot normal light_dir) 0 in
  tinted <- Vector3.__mul__ (Material.diffuse_color (Sphere.material obj))
              (Vector3.Vec (Light.color light)) ;;
  diffuse <- Vector3.__mul__ tinted (Vector3.Num i_diff) ;;
  reflect_dir <- Vector3.reflect (Vector3.__neg__ view_dir) normal ;;
  i_spec <- Py.pow (Py.max (Vector3.dot reflect_dir view_dir) 0)
              (Material.shininess (Sphere.material obj)) ;;
  glossy <- Vector3.__mul__ (Material.specular_color (Sphere.material obj))
              (Vector3.Vec (Light.color light)) ;;
  specular <- Vector3.__mul__ glossy (Vector3.Num i_spec) ;;
  try_except (partial <- plus color diffuse ;; plus partial specular)
    TypeError (Ok color).

Definition accumulate (hit_point normal view_dir : Vector3.t) (obj : Sphere.t)
    (lights : list Light.t) (color : Vector3.t) : result Vector3.t :=
  for_each (light_step hit_point normal view_dir obj) lights color.

End Accumulation.

(** The local illumination of a hit: normal, view direction, and the loop
    over the lights started from black. *)
Definition local_color (self : Ray.t) (scene : Scene.t) (hit_point : Vector3.t)
    (obj : Sphere.t) : result (Vector3.t * Vector3.t) :=
  normal <- Sphere.normal_vector obj hit_point ;;
  unit_dir <- Vector3.normalize (Ray.direction self) ;;
  let view_dir := Vector3.__neg__ unit_dir in
  color <- accumulate vector_plus hit_point normal view_dir obj
             (Scene.lighting scene) (Vector3.mk 0 0 0) ;;
  Ok (normal, color).

(** The reflection ray spawned at a hit. *)
Definition reflection_ray (self : Ray.t) (hit_point normal : Vector3.t) : result Ray.t :=
  reflect_dir <- Vector3.reflect (Ray.direction self) normal ;;
  offset <- Vector3.__mul__ normal (Vector3.Num epsilon) ;;
  Ok (Ray.mk (Vector3.__add__ hit_point offset) reflect_dir).

(** [Ray.color], by recursion on the call stack left: the recursive call is
    [ref_ray.color(scene, depth + 1)], without [max_depth]. *)
Fixpoint color_rec (stack : nat) (self : Ray.t) (scene : Scene.t) (depth max_depth : Z)
    : result Vector3.t :=
  match stack with
  | O => Raise RecursionError
  | S stack' =>
      h <- Scene.hit scene self ;;
      match h with
      | None => background self
      | Some (hit_point, obj) =>
          if (depth >=? max_depth)%Z then background self
          else
            lc <- local_color self scene hit_point obj ;;
            let normal := fst lc in
            let color := snd lc in
            if 0 <? Material.reflectivity (Sphere.material obj) then
              ref_ray <- reflection_ray self hit_point normal ;;
              ref_color <- color_rec stack' ref_ray scene (depth + 1)%Z default_max_depth ;;
              mix_color color ref_color (Material.reflectivity (Sphere.material obj))
            else Ok color
      end
  end.

(** Frames that a call at [depth] can need: itself, and reflections at
    [depth + 1], ... up to the first depth that reaches the default bound. *)
Definition frames (depth : Z) : nat := 2 + Z.to_nat (2 - depth).

Definition color (self : Ray.t) (scene : Scene.t) (depth max_depth : Z) : result Vector3.t :=
  color_rec (frames depth) self scene depth max_depth.

End Methods.

End Shader.

(** ** Camera *)

Module Camera.

Record t : Set := mk {
  position : Vector3.t;
  width : Z;
  height : Z;
  aspect_ratio : float;
  screen_distance : float;
  screen_width : float;
  screen_height : float;
  forward : Vector3.t;
  right : Vector3.t;
  up : Vector3.t
}.

Section Methods.
Context `{Libm}.
Local Open Scope float_scope.

Definition __init__ (position target : Vector3.t) (fov : float) (width height : Z) : result t :=
  w <- Py.float_of_int width ;;
  h <- Py.float_of_int height ;;
  aspect_ratio <- Py.div w h ;;
  let screen_distance := 1 in
  half_fov <- Py.div fov 2 ;;
  tangent <- Py.tan (Py.radians half_fov) ;;
  let screen_width := 2 * tangent in
  screen_height <- Py.div screen_width aspect_ratio ;;
  forward <- Vector3.normalize (Vector3.__sub__ target position) ;;
  right0 <- Vector3.normalize (Vector3.cross (Vector3.mk 0 1 0) forward) ;;
  len <- Vector3.length right0 ;;
  right <- (if len <? 0.001
            then Vector3.normalize (Vector3.cross (Vector3.mk 0 0 1) forward)
            else Ok right0) ;;
  up <- Vector3.normalize (Vector3.cross forward right) ;;
  Ok (mk position width height aspect_ratio screen_distance screen_width
        screen_height forward right up).

Definition get_ray (self : t) (x y : float) : result Ray.t :=
  screen_x <- Py.div ((x * 2 - 1) * screen_width self) 2 ;;
  screen_y <- Py.div ((1 - y * 2) * screen_height self) 2 ;;
  across <- Vector3.__mul__ (right self) (Vector3.Num screen_x) ;;
  upward <- Vector3.__mul__ (up self) (Vector3.Num screen_y) ;;
  ahead <- Vector3.__mul__ (forward self) (Vector3.Num (screen_distance self)) ;;
  ray_direction <- Vector3.normalize
                     (Vector3.__add__ (Vector3.__add__ across upward) ahead) ;;
  Ok (Ray.mk (position self) ray_direction).

End Methods.

End Camera.

(** ** Renderer: the loop nest of [render_scene] *)

Module Renderer.

Definition pixel : Set := (Z * Z * Z)%type.
Definition buffer : Set := list (list pixel).

(** [zeros((height, width, 3), dtype=uint8)] *)
Definition zeros (height width : nat) : buffer :=
  replicate height (replicate width (0%Z, 0%Z, 0%Z)).

(** [image_buffer[y][x] = value] *)
Definition set_pixel (image_buffer : buffer) (y x : nat) (value : pixel) : result buffer :=
  match image_buffer !! y with
  | Some row =>
      if (x <? length row)%nat then Ok (<[y := <[x := value]> row]> image_buffer)
      else Raise IndexError
  | None => Raise IndexError
  end.

Section Methods.
Context `{Libm}.
Local Open Scope float_scope.

Definition sample : nat := 2.

(** The normalised screen coordinates of sub-sample [(sx, sy)] of pixel
    [(x, y)]. *)
Definition sample_coordinates (width height x y sx sy : nat) : result (float * float) :=
  sxf <- Py.float_of_int (Z.of_nat sx) ;;
  sf <- Py.float_of_int (Z.of_nat sample) ;;
  offset_x <- Py.div (sxf + 0.5) sf ;;
  syf <- Py.float_of_int (Z.of_nat sy) ;;
  sf <- Py.float_of_int (Z.of_nat sample) ;;
  offset_y <- Py.div (syf + 0.5) sf ;;
  xf <- Py.float_of_int (Z.of_nat x) ;;
  wf <- Py.float_of_int (Z.of_nat width) ;;
  u <- Py.div (xf + offset_x) wf ;;
  yf <- Py.float_of_int (Z.of_nat y) ;;
  hf <- Py.float_of_int (Z.of_nat height) ;;
  v <- Py.div (yf + offset_y) hf ;;
  Ok (u, v).

(** The colour of one sub-sample: [camera.get_ray(u, v).color(scene, 2)]. *)
Definition sample_color (camera : Camera.t) (scene : Scene.t) (width height x y sx sy : nat)
    : result Vector3.t :=
  uv <- sample_coordinates width height x y sx sy ;;
  ray <- Camera.get_ray camera (fst uv) (snd uv) ;;
  Shader.color ray scene 2 Shader.default_max_depth.

(** The body of [for sx in range(sample)]. *)
Definition sample_step (camera : Camera.t) (scene : Scene.t) (width height x y sy : nat)
    (total_color : Vector3.t) (sx : nat) : result Vector3.t :=
  color <- sample_color camera scene width height x y sx sy ;;
  Ok (Vector3.__add__ total_color color).

(** The body of [for x in range(width)] up to the store. *)
Definition render_pixel (camera : Camera.t) (scene : Scene.t) (width height x y : nat)
    : result pixel :=
  total_color <-
    for_each (fun total sy => for_each (sample_step camera scene width height x y sy)
                                (seq 0 sample) total)
      (seq 0 sample) (Vector3.mk 0 0 0) ;;
  samples <- Py.float_of_int (Z.of_nat sample ^ 2) ;;
  total_color <- Vector3.__itruediv__ total_color samples ;;
  Ok (Vector3.rgb total_color).

Definition render_row (camera : Camera.t) (scene : Scene.t) (width height : nat)
    (image_buffer : buffer) (y : nat) : result buffer :=
  for_each (fun buf x =>
              value <- render_pixel camera scene width height x y ;;
              set_pixel buf y x value)
    (seq 0 width) image_buffer.

(** The two outer loops over a buffer of [height] rows of [width] pixels. *)
Definition render (camera : Camera.t) (scene : Scene.t) (width height : nat) : result buffer :=
  for_each (render_row camera scene width height) (seq 0 height) (zeros height width).

(** The scene and camera that [render_scene] builds. *)
Definition plastic_red : Material.t :=
  Material.__init__ (Vector3.mk 1.0 0.0 0.0) (Vector3.mk 1.0 1.0 1.0) None
    64 0.05 0.0 1.0 (0, 0, 0).

Definition glass_blue : Material.t :=
  Material.__init__ (Vector3.mk 0.1 0.2 0.9) (Vector3.mk 1.0 1.0 1.0) None
    128 0.1 0.9 1.52 (0, 0, 0).

Definition chrome_silver : Material.t :=
  Material.__init__ (Vector3.mk 0.6 0.6 0.6) (Vector3.mk 1.0 1.0 1.0) None
    256 0.9 0.0 1.0 (0, 0, 0).

Definition default_scene : Scene.t :=
  let sphere1 := Sphere.mk (Vector3.mk 0 0 6) 1.0 glass_blue in
  let sphere2 := Sphere.mk (Vector3.mk (-1.8) (-0.5) 4.5) 0.7 plastic_red in
  let sphere3 := Sphere.mk (Vector3.mk 1.8 (-0.5) 5) 0.7 chrome_silver in
  let light1 := Light.mk (Vector3.mk 5 5 (-2)) (Vector3.mk 1 1 1) 1.2 in
  let light2 := Light.mk (Vector3.mk (-4) 2 (-1)) (Vector3.mk 0.6 0.6 1) 0.5 in
  let light3 := Light.mk (Vector3.mk 0 5 10) (Vector3.mk 1 1 1) 0.3 in
  Scene.mk [light1; light2; light3] [sphere1; sphere2; sphere3].

Definition render_scene : result buffer :=
  let width := 1000%nat in
  let height := 800%nat in
  camera <- Camera.__init__ (Vector3.mk 0 0 0) (Vector3.mk 0 0 5) 75
              (Z.of_nat width) (Z.of_nat height) ;;
  render camera default_scene width height.

End Methods.

End Renderer.

(** ** Vector3 objects in the store

    A [Vector3] is a Python object: a method receives references, reads the
    attributes [x], [y], [z] behind them, and either builds a new object
    ([return Vector3(...)]) or assigns to the attributes of [self].  The
    store maps addresses to attribute triples; [call] runs one method. *)

Module VectorObject.

Definition addr : Set := nat.
Definition heap : Type := gmap nat Vector3.t.

(** What a method may be handed as its argument. *)
Inductive value : Set :=
| VObj (a : addr)
| VNum (s : float)
| VNone.

(** What a method returns. *)
Inductive ret : Set :=
| RObj (a : addr)
| RNum (s : float)
| RBytes (p : Z * Z * Z).

Inductive method : Set :=
| Add | Neg | Sub | Mul | RMul | TrueDiv | ITrueDiv
| Dot | Cross | Length | Normalize | Reflect | Rgb.

(** [Vector3(...)]: a new object at an unused address. *)
Definition alloc (h : heap) (v : Vector3.t) : heap * addr :=
  let a := fresh (dom h) in (<[a := v]> h, a).

Definition new (h : heap) (v : Vector3.t) : result (heap * ret) :=
  let ha := alloc h v in Ok (fst ha, RObj (snd ha)).

(** [other.x], [other.y], [other.z]: only an object has them. *)
Definition attributes (h : heap) (other : value) : result Vector3.t :=
  match other with
  | VObj a => match h !! a with Some v => Ok v | None => Raise AttributeError end
  | _ => Raise AttributeError
  end.

(** The run-time type test of [__mul__]. *)
Definition operand_of (h : heap) (other : value) : Vector3.operand :=
  match other with
  | VObj a => match h !! a with Some v => Vector3.Vec v | None => Vector3.Other end
  | VNum s => Vector3.Num s
  | VNone => Vector3.Other
  end.

Section Methods.
Context `{Libm}.
Local Open Scope float_scope.

Definition call (h : heap) (m : method) (self : addr) (arg : value) : result (heap * ret) :=
  v <- attributes h (VObj self) ;;
  match m with
  | Add => o <- attributes h arg ;; new h (Vector3.__add__ v o)
  | Neg => new h (Vector3.__neg__ v)
  | Sub => o <- attributes h arg ;; new h (Vector3.__sub__ v o)
  | Mul | RMul => r <- Vector3.__mul__ v (operand_of h arg) ;; new h r
  | TrueDiv =>
      match arg with
      | VNum s => r <- Vector3.__truediv__ v s ;; new h r
      | _ => Raise TypeError
      end
  | ITrueDiv =>
      match arg with
      | VNum s => r <- Vector3.__itruediv__ v s ;; Ok (<[self := r]> h, RObj self)
      | _ => Raise TypeError
      end
  | Dot => o <- attributes h arg ;; Ok (h, RNum (Vector3.dot v o))
  | Cross => o <- attributes h arg ;; new h (Vector3.cross v o)
  | Length => r <- Vector3.length v ;; Ok (h, RNum r)
  | Normalize => r <- Vector3.normalize v ;; new h r
  | Reflect =>
      n <- attributes h arg ;;
      step <- Vector3.__rmul__ n (Vector3.Num (2 * Vector3.dot v n)) ;;
      let h1 := fst (alloc h step) in
      new h1 (Vector3.__sub__ v step)
  | Rgb => Ok (h, RBytes (Vector3.rgb v))
  end.

End Methods.

(** The operations that the data model lists for the value type:
    add, subtract, negate, multiply, divide, dot, cross, length, normalize,
    reflect, rgb; [divide] stands for both [/] and [/=]. *)
Definition in_place (m : method) : bool :=
  match m with
  | ITrueDiv => true
  | _ => false
  end.

End VectorObject.

(** ** Vocabulary of the statements *)

(** A stand-in C library for running the model on concrete inputs: squares
    by one multiplication (exact whenever the square is a double, in which
    case any C library returns it).  The inputs below either never reach the
    library or stay within that case for the branch decisions they show. *)
Definition unit_libm : Libm :=
  {| libm_pow := fun a b => if (b =? 2)%float then (a * a)%float else nan;
     libm_tan := fun a => a |}.

(** Zero of either sign, or NaN: what a product with a zero factor can be. *)
Definition zero_or_nan (f : float) : bool :=
  match Prim2SF f with
  | S754_zero _ | S754_nan => true
  | _ => false
  end.

Section Vocabulary.
Context `{Libm}.
Local Open Scope float_scope.

(** Zeros, and what a sum or product with a zero can be. *)
Definition sf_zero (s : spec_float) : bool :=
  match s with
  | S754_zero _ => true
  | _ => false
  end.

Definition sf_zero_or_nan (s : spec_float) : bool :=
  match s with
  | S754_zero _ | S754_nan => true
  | _ => false
  end.

(** What the scan has established once it ends in state [st'], having
    started in [st] over spheres whose intersections are [ts]. *)
Definition scanned (objs : list Sphere.t) (ts : list (option float))
    (st st' : float * option Sphere.t) : Prop :=
  (forall j t', ts !! j = Some (Some t') -> (t' <? fst st') = false) /\
  (fst st <? fst st') = false /\
  (st' = st \/
   exists i obj t,
     objs !! i = Some obj /\ ts !! i = Some (Some t) /\ st' = (t, Some obj) /\
     (t <? fst st) = true /\
     forall j t', (j < i)%nat -> ts !! j = Some (Some t') -> (t <? t') = true).

(** Two scenes with the same spheres up to their materials. *)
Definition same_geometry (scene scene' : Scene.t) : Prop :=
  Forall2 (fun o o' => Sphere.center o = Sphere.center o' /\
                       Sphere.radius o = Sphere.radius o')
    (Scene.objects scene) (Scene.objects scene').

Definition same_choice (st st' : float * option Sphere.t) : Prop :=
  fst st = fst st' /\ (snd st = None <-> snd st' = None).

(** [Vector3(1,1,1) * (1 - alpha) + Vector3(0.5,0.7,1.0) * alpha] with
    [alpha = 0.5 * (direction.y + 1)], component by component. *)
Definition sky (self : Ray.t) : Vector3.t :=
  let alpha := 0.5 * (Vector3.y (Ray.direction self) + 1) in
  Vector3.mk (1 * (1 - alpha) + 0.5 * alpha)
             (1 * (1 - alpha) + 0.7 * alpha)
             (1 * (1 - alpha) + 1.0 * alpha).

(** [(1 - t) * a + t * b], component by component. *)
Definition blend (a b : Vector3.t) (t : float) : Vector3.t :=
  Vector3.mk (Vector3.x a * (1 - t) + Vector3.x b * t)
             (Vector3.y a * (1 - t) + Vector3.y b * t)
             (Vector3.z a * (1 - t) + Vector3.z b * t).

(** [hit_point + 0.01 * normal], component by component. *)
Definition lifted (hit_point normal : Vector3.t) : Vector3.t :=
  Vector3.mk (Vector3.x hit_point + Vector3.x normal * 0.01)
             (Vector3.y hit_point + Vector3.y normal * 0.01)
             (Vector3.z hit_point + Vector3.z normal * 0.01).

(** The component-wise product and the scaling of a colour. *)
Definition hadamard (a b : Vector3.t) : Vector3.t :=
  Vector3.mk (Vector3.x a * Vector3.x b) (Vector3.y a * Vector3.y b)
             (Vector3.z a * Vector3.z b).

Definition scale (a : Vector3.t) (s : float) : Vector3.t :=
  Vector3.mk (Vector3.x a * s) (Vector3.y a * s) (Vector3.z a * s).

(** The same light with another intensity. *)
Definition with_intensity (light : Light.t) (i : float) : Light.t :=
  Light.mk (Light.position light) (Light.color light) i.

(** The pixel stored at row [y], column [x]. *)
Definition pixel_at (buf : Renderer.buffer) (y x : nat) : option Renderer.pixel :=
  match buf !! y with
  | Some row => row !! x
  | None => None
  end.

(** A buffer of [height] rows of [width] pixels. *)
Definition shaped (buf : Renderer.buffer) (width height : nat) : Prop :=
  length buf = height /\ forall y row, buf !! y = Some row -> length row = width.

(** The sum of the four sub-sample colours in the order the loops add
    them ([sy] outside, [sx] inside), and its division by 4. *)
Definition sum4 (c00 c10 c01 c11 : Vector3.t) : Vector3.t :=
  Vector3.__add__
    (Vector3.__add__ (Vector3.__add__ (Vector3.__add__ (Vector3.mk 0 0 0) c00) c10) c01)
    c11.

Definition quarter (v : Vector3.t) : Vector3.t :=
  Vector3.mk (Vector3.x v / 4) (Vector3.y v / 4) (Vector3.z v / 4).

(** [(sx + 0.5) / 2] for [sx] in [{0, 1}]. *)
Definition offset (s : nat) : float :=
  match s with
  | O => 0.25
  | _ => 0.75
  end.

(** The 8-bit value of a channel: clamp to [0, 1], scale by 255, truncate. *)
Definition channel (c : float) : Z := Py.uint8 (Py.max 0 (Py.min 1 c) * 255).

(** What a method leaves behind: every object of the old store as it was,
    and a result that is a number, a byte triple, or a new object. *)
Definition preserves (h h' : VectorObject.heap) (r : VectorObject.ret) : Prop :=
  (forall a w, h !! a = Some w -> h' !! a = Some w) /\
  (forall a, r = VectorObject.RObj a -> h !! a = None /\ is_Some (h' !! a)).

Definition raises_zero_division {A : Type} (r : result A) : bool :=
  match r with
  | Raise ZeroDivisionError => true
  | _ => false
  end.

(** What a call does once the scene has answered: the body of [Ray.color]
    with the recursive call left as a parameter. *)
Definition shade (self : Ray.t) (scene : Scene.t) (depth max_depth : Z)
    (recurse : Ray.t -> result Vector3.t) (h : option (Vector3.t * Sphere.t))
    : result Vector3.t :=
  match h with
  | None => Shader.background self
  | Some (hit_point, obj) =>
      if (depth >=? max_depth)%Z then Shader.background self
      else
        lc <- Shader.local_color self scene hit_point obj ;;
        if 0 <? Material.reflectivity (Sphere.material obj) then
          ref_ray <- Shader.reflection_ray self hit_point (fst lc) ;;
          ref_color <- recurse ref_ray ;;
          Shader.mix_color (snd lc) ref_color (Material.reflectivity (Sphere.material obj))
        else Ok (snd lc)
  end.

(** The diffuse and the specular term of one light at a hit. *)
Definition light_terms (m : Material.t) (hit_point normal view_dir : Vector3.t)
    (light : Light.t) : result (Vector3.t * Vector3.t) :=
  light_dir <- Vector3.normalize (Vector3.__sub__ (Light.position light) hit_point) ;;
  reflect_dir <- Vector3.reflect (Vector3.__neg__ view_dir) normal ;;
  i_spec <- Py.pow (Py.max (Vector3.dot reflect_dir view_dir) 0) (Material.shininess m) ;;
  Ok (scale (hadamard (Material.diffuse_color m) (Light.color light))
        (Py.max (Vector3.dot normal light_dir) 0),
      scale (hadamard (Material.specular_color m) (Light.color light)) i_spec).

(** The running sum over the lights, in their order, started from [acc]. *)
Definition sum_lights (m : Material.t) (hit_point normal view_dir : Vector3.t)
    (lights : list Light.t) (acc : Vector3.t) : result Vector3.t :=
  for_each (fun acc light =>
              ds <- light_terms m hit_point normal view_dir light ;;
              Ok (Vector3.__add__ (Vector3.__add__ acc (fst ds)) (snd ds)))
    lights acc.

End Vocabulary.

(** ** Further vocabulary: what the shader reads, what can be raised *)

(** Two materials that agree on the fields [Ray.color] reads: the diffuse
    and specular colours, the shininess and the reflectivity. *)
Definition same_surface (m m' : Material.t) : Prop :=
  Material.diffuse_color m = Material.diffuse_color m' /\
  Material.specular_color m = Material.specular_color m' /\
  Material.shininess m = Material.shininess m' /\
  Material.reflectivity m = Material.reflectivity m'.

Definition same_sphere (o o' : Sphere.t) : Prop :=
  Sphere.center o = Sphere.center o' /\ Sphere.radius o = Sphere.radius o' /\
  same_surface (Sphere.material o) (Sphere.material o').

(** Two lights that agree on position and colour. *)
Definition same_light (l l' : Light.t) : Prop :=
  Light.position l = Light.position l' /\ Light.color l = Light.color l'.

(** Two scenes whose spheres and lights agree, one by one and in order, on
    everything but the ambient colour, the transparency, the refractive
    index and the emission colour of a material and the intensity of a
    light. *)
Definition same_appearance (scene scene' : Scene.t) : Prop :=
  Forall2 same_sphere (Scene.objects scene) (Scene.objects scene') /\
  Forall2 same_light (Scene.lighting scene) (Scene.lighting scene').

Definition same_hit (h h' : option (Vector3.t * Sphere.t)) : Prop :=
  match h, h' with
  | None, None => True
  | Some (p, o), Some (p', o') => p = p' /\ same_sphere o o'
  | _, _ => False
  end.

(** A computation that returns, or raises one of the listed exceptions. *)
Definition raises_only {A : Type} (allowed : list exn) (r : result A) : bool :=
  match r with
  | Ok _ => true
  | Raise e => existsb (exn_eqb e) allowed
  end.

(** The failures of float arithmetic: a zero divisor, a power beyond the
    doubles, a root or a tangent outside the domain. *)
Definition arithmetic : list exn := [ZeroDivisionError; OverflowError; ValueError].

(** A C library whose powers are never below zero, as those of a positive
    base are. *)
Definition powers_not_negative `{Libm} : Prop :=
  forall a b : float, PrimFloat.ltb (libm_pow a b) 0%float = false.

(** Concrete inputs on which the statements are run. *)
Module Sample.

Local Open Scope float_scope.

Definition mirror : Material.t :=
  Material.__init__ (Vector3.mk 1 0 0) (Vector3.mk 1 1 1) None 32 0.5 0 1 (0, 0, 0).

Definition matte : Material.t :=
  Material.__init__ (Vector3.mk 0 1 0) (Vector3.mk 1 1 1) None 32 0 0 1 (0, 0, 0).

(** A reflective sphere ahead of the origin, a matte one behind it, a matte
    one further ahead, and a white light at the origin. *)
Definition ahead : Sphere.t := Sphere.mk (Vector3.mk 0 0 5) 1 mirror.
Definition behind : Sphere.t := Sphere.mk (Vector3.mk 0 0 (-5)) 1 matte.
Definition further : Sphere.t := Sphere.mk (Vector3.mk 0 0 10) 1 matte.
Definition lamp : Light.t := Light.mk (Vector3.mk 0 0 0) (Vector3.mk 1 1 1) 1.

Definition facing : Scene.t := Scene.mk [lamp] [ahead; behind].
Definition in_line : Scene.t := Scene.mk [lamp] [further; ahead].

(** The ray along [+z] from the origin, the one along [+y], and the
    reflection of the first on [ahead]. *)
Definition forward_ray : Ray.t := Ray.mk (Vector3.mk 0 0 0) (Vector3.mk 0 0 1).
Definition upward_ray : Ray.t := Ray.mk (Vector3.mk 0 0 0) (Vector3.mk 0 1 0).
Definition bounce_ray : Ray.t :=
  Ray.mk (Vector3.mk 0 0 (4 + -1 * 0.01)) (Vector3.mk 0 0 (-1)).

(** A ray with no direction, and one whose direction is so short that its
    square underflows to zero; both start at the centre of [ahead]. *)
Definition still_ray : Ray.t := Ray.mk (Vector3.mk 0 0 5) (Vector3.mk 0 0 0).
Definition faint_ray : Ray.t := Ray.mk (Vector3.mk 0 0 5) (Vector3.mk 1e-200 0 0).

(** A unit sphere so far away along a direction so short that the
    parameter of its intersection overflows: centre [(2^511, 2^511, 0)],
    direction [(2^-513, 2^-513, 0)]. *)
Definition remote : Sphere.t := Sphere.mk (Vector3.mk 0x1p511 0x1p511 0) 1 matte.
Definition remote_ray : Ray.t :=
  Ray.mk (Vector3.mk 0 0 0) (Vector3.mk 0x1p-513 0x1p-513 0).

(** A camera at the origin looking along [+z] through a narrow screen. *)
Definition camera : Camera.t :=
  Camera.mk (Vector3.mk 0 0 0) 1 1 1 1 0.25 0.25
    (Vector3.mk 0 0 1) (Vector3.mk 1 0 0) (Vector3.mk 0 1 0).

(** A store with one vector. *)
Definition store : VectorObject.heap := {[ 0%nat := Vector3.mk 2 4 6 ]}.

(** A [+] that fails on every operand, as on operands of foreign types. *)
Definition refusing_plus (a b : Vector3.t) : result Vector3.t := Raise TypeError.

(** The scene [facing] with the fields that the shader never reads set to
    other values: a transparent, emitting material on the sphere ahead and
    a stronger lamp. *)
Definition glassy : Material.t :=
  Material.mk (Vector3.mk 1 0 0) (Vector3.mk 1 1 1) (Vector3.mk 0 0 1) 32 0.5 0.9 1.52
    (1, 1, 1).
Definition facing_glass : Scene.t :=
  Scene.mk [Light.mk (Vector3.mk 0 0 0) (Vector3.mk 1 1 1) 7]
           [Sphere.mk (Vector3.mk 0 0 5) 1 glassy; behind].

End Sample.

(** * Verification *)

(** ** Facts about binary64 comparison and arithmetic *)

(** Case analysis on the exponent and mantissa comparisons of two finite
    floats. *)
Ltac sf_cases :=
  unfold SFltb, SFleb, SFeqb, SFcompare;
  change (Pos.compare_cont Eq) with Pos.compare;
  repeat match goal with
         | |- context [Z.compare ?a ?b] => destruct (Z.compare_spec a b)
         | |- context [Pos.compare ?a ?b] => destruct (Pos.compare_spec a b)
         end;
  simpl; try reflexivity; try discriminate; intros; try congruence; try lia.

Section FloatFacts.
Local Open Scope float_scope.

Lemma SFltb_finite_trans (s : bool) m1 e1 m2 e2 m3 e3 :
  SFltb (S754_finite s m1 e1) (S754_finite s m2 e2) = true ->
  SFltb (S754_finite s m2 e2) (S754_finite s m3 e3) = true ->
  SFltb (S754_finite s m1 e1) (S754_finite s m3 e3) = true.
Proof.
  unfold SFltb, SFcompare.
  change (Pos.compare_cont Eq) with Pos.compare.
  destruct s;
    destruct (Z.compare_spec e1 e2), (Z.compare_spec e2 e3), (Z.compare_spec e1 e3);
    destruct (Pos.compare_spec m1 m2), (Pos.compare_spec m2 m3), (Pos.compare_spec m1 m3);
    simpl; try reflexivity; try discriminate; intros; try lia.
Qed.

Lemma SFltb_trans a b c :
  SFltb a b = true -> SFltb b c = true -> SFltb a c = true.
Proof.
  destruct a as [sa|sa| |sa ma ea], b as [sb|sb| |sb mb eb], c as [sc|sc| |sc mc ec];
    try (destruct sa); try (destruct sb); try (destruct sc);
    try (cbn; congruence);
    apply SFltb_finite_trans.
Qed.

Lemma SFcompare_refl a : a <> S754_nan -> SFcompare a a = Some Eq.
Proof.
  destruct a as [s|s| |s m e]; try (destruct s); cbn; try congruence; intros _;
    rewrite Z.compare_refl; change (Pos.compare_cont Eq m m) with (Pos.compare m m);
    rewrite Pos.compare_refl; reflexivity.
Qed.

Lemma SFltb_not_nan_r a b : SFltb a b = true -> b <> S754_nan.
Proof. intros Hlt ->. destruct a as [s|s| |s m e]; discriminate. Qed.

Lemma SFltb_not_nan_l a b : SFltb a b = true -> a <> S754_nan.
Proof. intros Hlt ->. discriminate. Qed.

Lemma SFltb_SFleb_false a b : SFltb a b = true -> SFleb b a = false.
Proof.
  unfold SFltb, SFleb, SFcompare.
  change (Pos.compare_cont Eq) with Pos.compare.
  destruct a as [sa|sa| |sa ma ea], b as [sb|sb| |sb mb eb];
    try (destruct sa); try (destruct sb); try (cbn; congruence);
    destruct (Z.compare_spec ea eb), (Z.compare_spec eb ea);
    destruct (Pos.compare_spec ma mb), (Pos.compare_spec mb ma);
    simpl; try reflexivity; try discriminate; intros; try lia.
Qed.

Lemma ltb_trans (a b c : float) :
  (a <? b) = true -> (b <? c) = true -> (a <? c) = true.
Proof. rewrite !FloatAxioms.ltb_spec. apply SFltb_trans. Qed.

Lemma ltb_leb_false (a b : float) : (a <? b) = true -> (b <=? a) = false.
Proof. rewrite FloatAxioms.ltb_spec, FloatAxioms.leb_spec. apply SFltb_SFleb_false. Qed.

Lemma ltb_irrefl (a : float) : (a <? a) = false.
Proof.
  rewrite FloatAxioms.ltb_spec. unfold SFltb.
  destruct (Prim2SF a) as [s|s| |s m e] eqn:E.
  - rewrite SFcompare_refl; congruence.
  - rewrite SFcompare_refl; congruence.
  - reflexivity.
  - rewrite SFcompare_refl; congruence.
Qed.

Lemma ltb_asym (a b : float) : (a <? b) = true -> (b <? a) = false.
Proof.
  intros Hab. destruct (b <? a) eqn:Hba; [|reflexivity].
  pose proof (ltb_trans _ _ _ Hab Hba) as Haa.
  rewrite ltb_irrefl in Haa. discriminate.
Qed.

Lemma is_nan_spec (a : float) : is_nan a = true <-> Prim2SF a = S754_nan.
Proof.
  unfold is_nan. rewrite FloatAxioms.eqb_spec. unfold SFeqb. split.
  - destruct (Prim2SF a) as [s|s| |s m e] eqn:E; try reflexivity;
      rewrite SFcompare_refl; try congruence; discriminate.
  - intros ->. reflexivity.
Qed.

Lemma ltb_not_nan_r (a b : float) : (a <? b) = true -> is_nan b = false.
Proof.
  rewrite FloatAxioms.ltb_spec. intros Hlt. apply SFltb_not_nan_r in Hlt.
  destruct (is_nan b) eqn:E; [|reflexivity].
  apply is_nan_spec in E. contradiction.
Qed.

Lemma SFltb_cotrans a b c :
  SFltb a b = true -> SFltb c b = false -> c <> S754_nan -> SFltb a c = true.
Proof.
  destruct a as [sa|sa| |sa ma ea], b as [sb|sb| |sb mb eb], c as [sc|sc| |sc mc ec];
    try (destruct sa); try (destruct sb); try (destruct sc);
    try (cbn; congruence); sf_cases.
Qed.

Lemma SFleb_total a b :
  SFltb b a = false -> a <> S754_nan -> b <> S754_nan -> SFleb a b = true.
Proof.
  destruct a as [sa|sa| |sa ma ea], b as [sb|sb| |sb mb eb];
    try (destruct sa); try (destruct sb);
    try (cbn; congruence); sf_cases.
Qed.

Lemma SFltb_infinity a b : SFltb a b = true -> SFltb a (S754_infinity false) = true.
Proof.
  destruct a as [sa|sa| |sa ma ea], b as [sb|sb| |sb mb eb];
    try (destruct sa); try (destruct sb);
    try (cbn; congruence).
Qed.

Lemma is_nan_false_spec (a : float) : is_nan a = false -> Prim2SF a <> S754_nan.
Proof. intros E Hn. apply is_nan_spec in Hn. congruence. Qed.

(** On numbers, [<] is a strict total order: what is not below [b] is above
    everything below [b]. *)
Lemma ltb_cotrans (a b c : float) :
  (a <? b) = true -> (c <? b) = false -> is_nan c = false -> (a <? c) = true.
Proof.
  rewrite !FloatAxioms.ltb_spec. intros Hab Hcb Hc.
  eapply SFltb_cotrans; eauto using is_nan_false_spec.
Qed.

Lemma leb_total (a b : float) :
  (b <? a) = false -> is_nan a = false -> is_nan b = false -> (a <=? b) = true.
Proof.
  rewrite FloatAxioms.ltb_spec, FloatAxioms.leb_spec. intros Hba Ha Hb.
  apply SFleb_total; eauto using is_nan_false_spec.
Qed.

Lemma ltb_infinity (a b : float) : (a <? b) = true -> (a <? infinity) = true.
Proof.
  rewrite !FloatAxioms.ltb_spec. intros Hab.
  change (Prim2SF infinity) with (S754_infinity false).
  eapply SFltb_infinity, Hab.
Qed.

Lemma SFeqb_SFltb_false a b : SFeqb a b = true -> SFltb b a = false.
Proof.
  destruct a as [sa|sa| |sa ma ea], b as [sb|sb| |sb mb eb];
    try (destruct sa); try (destruct sb); try (cbn; congruence); sf_cases.
Qed.

Lemma eqb_ltb_false (a b : float) : (a =? b) = true -> (b <? a) = false.
Proof. rewrite FloatAxioms.eqb_spec, FloatAxioms.ltb_spec. apply SFeqb_SFltb_false. Qed.

Lemma shr_1_nonneg mrs : (0 <= shr_m mrs)%Z -> (0 <= shr_m (shr_1 mrs))%Z.
Proof.
  destruct mrs as [m r s]. cbn. destruct m as [|p|p]; [cbn; lia| |lia].
  intros _. destruct p; cbn; lia.
Qed.

Lemma iter_pos_invariant {A : Type} (P : A -> Prop) (f : A -> A) :
  (forall a, P a -> P (f a)) -> forall p a, P a -> P (@SpecFloat.iter_pos A f p a).
Proof.
  intros Hf. induction p as [p IH|p IH|]; intros a Ha; cbn; auto.
Qed.

Lemma shr_nonneg mrs e n : (0 <= shr_m mrs)%Z -> (0 <= shr_m (fst (shr mrs e n)))%Z.
Proof.
  intros Hm. unfold shr. destruct n as [|p|p]; cbn [fst]; try exact Hm.
  apply (iter_pos_invariant (fun r => 0 <= shr_m r)%Z); [apply shr_1_nonneg | exact Hm].
Qed.

Lemma shr_fexp_nonneg m e l :
  (0 <= m)%Z -> (0 <= shr_m (fst (shr_fexp prec emax m e l)))%Z.
Proof.
  intros Hm. unfold shr_fexp. apply shr_nonneg.
  destruct l as [|[]]; exact Hm.
Qed.

Lemma round_nearest_even_nonneg m l : (0 <= m)%Z -> (0 <= round_nearest_even m l)%Z.
Proof.
  intros Hm. unfold round_nearest_even. destruct l as [|[]]; try lia.
  destruct (Z.even m); lia.
Qed.

Lemma binary_round_aux_not_nan sx mx ex lx :
  (0 <= mx)%Z -> binary_round_aux prec emax sx mx ex lx <> S754_nan.
Proof.
  intros Hm. unfold binary_round_aux.
  pose proof (shr_fexp_nonneg mx ex lx Hm) as H1.
  destruct (shr_fexp prec emax mx ex lx) as [mrs' e']. cbn [fst] in H1.
  pose proof (shr_fexp_nonneg (round_nearest_even (shr_m mrs') (loc_of_shr_record mrs')) e'
                loc_Exact (round_nearest_even_nonneg _ _ H1)) as H2.
  destruct (shr_fexp prec emax _ e' loc_Exact) as [mrs'' e'']. cbn [fst] in H2.
  destruct (shr_m mrs'') as [|p|p]; [discriminate| |lia].
  destruct (e'' <=? emax - prec)%Z; discriminate.
Qed.

Lemma SFsqrt_nan s :
  SFsqrt prec emax s = S754_nan ->
  s = S754_nan \/ SFltb s (S754_zero false) = true.
Proof.
  destruct s as [sg|sg| |sg m e]; cbn.
  - destruct sg; discriminate.
  - destruct sg; [right; reflexivity|discriminate].
  - left; reflexivity.
  - destruct sg; [right; reflexivity|].
    intros Hs. exfalso.
    unfold SFsqrt_core_binary in Hs.
    set (m' := match _ with Zpos _ => _ | Z0 => _ | Zneg _ => _ end) in Hs.
    assert (Hm' : (0 <= m')%Z).
    { subst m'. destruct (e - 2 * _)%Z; try lia. apply Z.shiftl_nonneg. lia. }
    pose proof (Z.sqrtrem_spec m' Hm') as Hspec.
    destruct (Z.sqrtrem m') as [q r].
    revert Hs. apply binary_round_aux_not_nan. lia.
Qed.

(** Past the test [d < 0], [math.sqrt] does not raise. *)
Lemma sqrt_guarded (d : float) : (d <? 0) = false -> Py.sqrt d = Ok (PrimFloat.sqrt d).
Proof.
  intros Hd. unfold Py.sqrt.
  destruct (is_nan (PrimFloat.sqrt d)) eqn:Hr; [|reflexivity].
  destruct (is_nan d) eqn:Hn; [reflexivity|]. exfalso.
  apply is_nan_spec in Hr. rewrite sqrt_spec in Hr.
  apply SFsqrt_nan in Hr as [Hr|Hr].
  - apply is_nan_spec in Hr. congruence.
  - rewrite FloatAxioms.ltb_spec in Hd.
    change (Prim2SF 0) with (S754_zero false) in Hd. congruence.
Qed.

Lemma zero_or_nan_spec (f : float) : zero_or_nan f = sf_zero_or_nan (Prim2SF f).
Proof. reflexivity. Qed.

Lemma eqb_zero (f : float) : (f =? 0) = true <-> sf_zero (Prim2SF f) = true.
Proof.
  rewrite FloatAxioms.eqb_spec. change (Prim2SF 0) with (S754_zero false).
  destruct (Prim2SF f) as [s|s| |s m e]; cbn; try destruct s; split; congruence.
Qed.

Lemma mul_zero_zero (a b : float) :
  sf_zero (Prim2SF a) = true -> sf_zero (Prim2SF b) = true ->
  sf_zero (Prim2SF (a * b)) = true.
Proof.
  rewrite mul_spec.
  destruct (Prim2SF a) as [s|s| |s m e], (Prim2SF b) as [s'|s'| |s' m' e']; cbn; congruence.
Qed.

Lemma add_zero_zero (a b : float) :
  sf_zero (Prim2SF a) = true -> sf_zero (Prim2SF b) = true ->
  sf_zero (Prim2SF (a + b)) = true.
Proof.
  rewrite add_spec.
  destruct (Prim2SF a) as [s|s| |s m e], (Prim2SF b) as [s'|s'| |s' m' e']; cbn;
    try congruence.
  destruct s, s'; reflexivity.
Qed.

Lemma mul_number_zero (k a : float) :
  is_finite k = true -> sf_zero (Prim2SF a) = true -> sf_zero (Prim2SF (k * a)) = true.
Proof.
  unfold is_finite, is_infinity, is_nan. rewrite !FloatAxioms.eqb_spec, abs_spec, mul_spec.
  change (Prim2SF infinity) with (S754_infinity false).
  destruct (Prim2SF k) as [s|s| |s m e], (Prim2SF a) as [s'|s'| |s' m' e']; cbn;
    try congruence; destruct s; cbn; congruence.
Qed.

Lemma mul_zero_or_nan_l (a b : float) :
  zero_or_nan a = true -> zero_or_nan (a * b) = true.
Proof.
  rewrite !zero_or_nan_spec, mul_spec.
  destruct (Prim2SF a) as [s|s| |s m e], (Prim2SF b) as [s'|s'| |s' m' e']; cbn; congruence.
Qed.

Lemma mul_zero_or_nan_r (a b : float) :
  zero_or_nan b = true -> zero_or_nan (a * b) = true.
Proof.
  rewrite !zero_or_nan_spec, mul_spec.
  destruct (Prim2SF a) as [s|s| |s m e], (Prim2SF b) as [s'|s'| |s' m' e']; cbn; congruence.
Qed.

Lemma add_zero_or_nan (a b : float) :
  zero_or_nan a = true -> zero_or_nan b = true -> zero_or_nan (a + b) = true.
Proof.
  rewrite !zero_or_nan_spec, add_spec.
  destruct (Prim2SF a) as [s|s| |s m e], (Prim2SF b) as [s'|s'| |s' m' e']; cbn;
    try congruence.
  destruct s, s'; reflexivity.
Qed.

Lemma sub_zero_or_nan (a b : float) :
  zero_or_nan a = true -> zero_or_nan b = true -> zero_or_nan (a - b) = true.
Proof.
  rewrite !zero_or_nan_spec, sub_spec.
  destruct (Prim2SF a) as [s|s| |s m e], (Prim2SF b) as [s'|s'| |s' m' e']; cbn;
    try congruence.
  destruct s, s'; reflexivity.
Qed.

Lemma zero_is_zero_or_nan (a : float) : sf_zero (Prim2SF a) = true -> zero_or_nan a = true.
Proof. rewrite zero_or_nan_spec. destruct (Prim2SF a); cbn; congruence. Qed.

Lemma zero_or_nan_not_negative (d : float) : zero_or_nan d = true -> (d <? 0) = false.
Proof.
  rewrite zero_or_nan_spec, FloatAxioms.ltb_spec. change (Prim2SF 0) with (S754_zero false).
  destruct (Prim2SF d) as [s|s| |s m e]; cbn; congruence.
Qed.

Lemma zero_or_nan_cases (b : float) :
  zero_or_nan b = true -> is_nan b = true \/ (is_nan b = false /\ (b =? 0) = true /\
                                               is_infinity b = false).
Proof.
  rewrite zero_or_nan_spec. unfold is_infinity, is_nan.
  rewrite !FloatAxioms.eqb_spec, abs_spec. change (Prim2SF 0) with (S754_zero false).
  change (Prim2SF infinity) with (S754_infinity false).
  destruct (Prim2SF b) as [s|s| |s m e]; cbn; try congruence; auto.
Qed.

End FloatFacts.

(** ** Sphere.intersect *)

Section IntersectFacts.
Context `{Libm}.
Local Open Scope float_scope.

Lemma bind_ok {A B : Type} (m : result A) (k : A -> result B) (b : B) :
  (x <- m ;; k x) = Ok b -> exists a, m = Ok a /\ k a = Ok b.
Proof. destruct m as [a|e]; cbn; [eauto | discriminate]. Qed.

(** [intersect] is the discriminant test followed by the choice between
    the two roots. *)
Lemma intersect_unfold (self : Sphere.t) (ray : Ray.t) :
  Sphere.intersect self ray =
  (d <- Sphere.discriminant self ray ;;
   if d <? 0 then Ok None
   else
     ts <- Sphere.roots (Sphere.coeff_a ray) (Sphere.coeff_b self ray) d ;;
     if 0.001 <? fst ts then Ok (Some (fst ts))
     else if 0.001 <? snd ts then Ok (Some (snd ts))
     else Ok None).
Proof.
  unfold Sphere.intersect, Sphere.discriminant, Sphere.coeff_c, Sphere.roots,
    Sphere.coeff_a, Sphere.coeff_b.
  destruct (Py.pow (Sphere.radius self) 2) as [r2|e]; cbn [bind fst snd]; [|reflexivity].
  match goal with |- context [Py.pow ?b 2] => destruct (Py.pow b 2) as [b2|e] end;
    cbn [bind fst snd]; [|reflexivity].
  match goal with |- context [?d <? 0] => destruct (d <? 0); [reflexivity|] end.
  match goal with |- context [Py.sqrt ?d] => destruct (Py.sqrt d) as [sq|e] end;
    cbn [bind fst snd]; [|reflexivity].
  repeat match goal with
         | |- context [Py.div ?n ?d] => destruct (Py.div n d) as [?|?]; cbn [bind fst snd]; [|reflexivity]
         end.
  reflexivity.
Qed.

Lemma above_epsilon_facts (t : float) :
  (0.001 <? t) = true ->
  (t <? 0) = false /\ (t <=? 0.001) = false /\ is_nan t = false.
Proof.
  intros Ht. repeat split.
  - destruct (t <? 0) eqn:E; [|reflexivity].
    pose proof (ltb_trans _ _ _ Ht E) as Habs. vm_compute in Habs. discriminate.
  - apply ltb_leb_false, Ht.
  - eapply ltb_not_nan_r, Ht.
Qed.

Lemma intersect_some_above (self : Sphere.t) (ray : Ray.t) (t : float) :
  Sphere.intersect self ray = Ok (Some t) -> (0.001 <? t) = true.
Proof.
  rewrite intersect_unfold. intros Hi.
  apply bind_ok in Hi as (d & _ & Hk).
  destruct (d <? 0); [discriminate|].
  apply bind_ok in Hk as ([t1 t2] & _ & Hk). cbn [bind fst snd] in Hk.
  destruct (0.001 <? t1) eqn:H1; [congruence|].
  destruct (0.001 <? t2) eqn:H2; [congruence|discriminate].
Qed.


End IntersectFacts.

(** ** Scene.hit *)

Section HitFacts.
Context `{Libm}.
Local Open Scope float_scope.

Lemma point_ok (ray : Ray.t) (t : float) :
  Ray.point ray t =
  Ok (Vector3.__add__ (Ray.origin ray)
        (Vector3.mk (Vector3.x (Ray.direction ray) * t)
                    (Vector3.y (Ray.direction ray) * t)
                    (Vector3.z (Ray.direction ray) * t))).
Proof. reflexivity. Qed.

Lemma hit_scan (ray : Ray.t) (objs : list Sphere.t) :
  forall (ts : list (option float)) (st : float * option Sphere.t),
    Forall2 (fun obj t => Sphere.intersect obj ray = Ok t) objs ts ->
    exists st', for_each (Scene.hit_step ray) objs st = Ok st' /\ scanned objs ts st st'.
Proof.
  induction objs as [|obj objs IH]; intros ts st Hall.
  - apply Forall2_nil_inv_l in Hall as ->. exists st. split; [reflexivity|].
    split; [|split].
    + intros j t' Hj. rewrite lookup_nil in Hj. discriminate.
    + apply ltb_irrefl.
    + left. reflexivity.
  - apply Forall2_cons_inv_l in Hall as (t0 & ts' & Hobj & Hall & ->).
    cbn [for_each]. unfold Scene.hit_step at 1. rewrite Hobj. cbn [bind].
    destruct t0 as [t|].
    + pose proof (intersect_some_above _ _ _ Hobj) as Hvalid.
      pose proof (ltb_not_nan_r _ _ Hvalid) as Hnum.
      destruct (t <? fst st) eqn:Hlt; cbn [bind].
      * destruct (IH ts' (t, Some obj) Hall) as (st' & Hrun & Hall' & Hmono & Hwin).
        exists st'. split; [exact Hrun|]. cbn [fst] in Hmono.
        assert (Hst' : (fst st' <? fst st) = true).
        { destruct Hwin as [->|(i & o & t2 & _ & _ & -> & Ht2 & _)]; cbn [fst] in *.
          - exact Hlt.
          - eapply ltb_trans; eauto. }
        split; [|split].
        -- intros [|j] t' Hj; cbn in Hj.
           ++ injection Hj as <-. exact Hmono.
           ++ eapply Hall', Hj.
        -- apply ltb_asym, Hst'.
        -- right. destruct Hwin as [->|(i & o & t2 & Ho & Hti & -> & Ht2 & Hfirst)].
           ++ exists 0%nat, obj, t. repeat split; try reflexivity; try exact Hlt.
              intros j t' Hj. lia.
           ++ exists (S i), o, t2. cbn [fst] in *. repeat split; try assumption.
              intros [|j] t' Hji Hj; cbn in Hj.
              ** injection Hj as <-. exact Ht2.
              ** eapply Hfirst; [|exact Hj]. lia.
      * destruct (IH ts' st Hall) as (st' & Hrun & Hall' & Hmono & Hwin).
        exists st'. split; [exact Hrun|]. split; [|split].
        -- intros [|j] t' Hj; cbn in Hj.
           ++ injection Hj as <-.
              destruct Hwin as [->|(i & o & t2 & _ & _ & -> & Ht2 & _)]; cbn [fst] in *.
              ** exact Hlt.
              ** destruct (t <? t2) eqn:E; [|reflexivity].
                 rewrite (ltb_trans _ _ _ E Ht2) in Hlt. discriminate.
           ++ eapply Hall', Hj.
        -- exact Hmono.
        -- destruct Hwin as [->|(i & o & t2 & Ho & Hti & -> & Ht2 & Hfirst)]; [left; reflexivity|].
           right. exists (S i), o, t2. cbn [fst] in *. repeat split; try assumption.
           intros [|j] t' Hji Hj; cbn in Hj.
           ++ injection Hj as <-. eapply ltb_cotrans; eauto.
           ++ eapply Hfirst; [|exact Hj]. lia.
    + destruct (IH ts' st Hall) as (st' & Hrun & Hall' & Hmono & Hwin).
      exists st'. split; [exact Hrun|]. split; [|split].
      * intros [|j] t' Hj; cbn in Hj; [discriminate|]. eapply Hall', Hj.
      * exact Hmono.
      * destruct Hwin as [->|(i & o & t2 & Ho & Hti & -> & Ht2 & Hfirst)]; [left; reflexivity|].
        right. exists (S i), o, t2. repeat split; try assumption.
        intros [|j] t' Hji Hj; cbn in Hj; [discriminate|].
        eapply Hfirst; [|exact Hj]. lia.
Qed.

(** C2 (as amended). When every sphere's intersection test returns, the scan
    answers with the first sphere whose valid [t] is least among the finite
    valid [t] of all spheres, paired with the ray evaluated at that [t]; it
    answers with the sentinel exactly when no sphere has a valid [t] below
    [+inf].  In particular, of two spheres both intersected, the one with
    the strictly smaller [t] is returned. *)
Theorem hit_nearest (scene : Scene.t) (ray : Ray.t) (ts : list (option float)) :
  Forall2 (fun obj t => Sphere.intersect obj ray = Ok t) (Scene.objects scene) ts ->
  (((forall j t', ts !! j = Some (Some t') -> (t' <? infinity) = false) /\
    Scene.hit scene ray = Ok None) \/
   (exists i obj t p,
      Scene.objects scene !! i = Some obj /\ ts !! i = Some (Some t) /\
      (t <? infinity) = true /\ Ray.point ray t = Ok p /\
      Scene.hit scene ray = Ok (Some (p, obj)) /\
      (forall j t', ts !! j = Some (Some t') -> (t' <? t) = false /\ (t <=? t') = true) /\
      (forall j t', (j < i)%nat -> ts !! j = Some (Some t') -> (t <? t') = true))) /\
  (forall o1 o2 t1 t2 winner t,
     Scene.objects scene = [o1; o2] -> ts = [Some t1; Some t2] ->
     ((t1 <? t2) = true /\ winner = o1 /\ t = t1) \/
     ((t2 <? t1) = true /\ winner = o2 /\ t = t2) ->
     exists p, Ray.point ray t = Ok p /\ Scene.hit scene ray = Ok (Some (p, winner))).
Proof.
  intros Hall.
  assert (Hvalid : forall j t', ts !! j = Some (Some t') -> is_nan t' = false).
  { intros j t' Hj.
    destruct (Forall2_lookup_r _ _ _ _ _ Hall Hj) as (o & _ & Ho).
    eapply ltb_not_nan_r, intersect_some_above, Ho. }
  assert (Hmain :
    ((forall j t', ts !! j = Some (Some t') -> (t' <? infinity) = false) /\
      Scene.hit scene ray = Ok None) \/
    (exists i obj t p,
      Scene.objects scene !! i = Some obj /\ ts !! i = Some (Some t) /\
      (t <? infinity) = true /\ Ray.point ray t = Ok p /\
      Scene.hit scene ray = Ok (Some (p, obj)) /\
      (forall j t', ts !! j = Some (Some t') -> (t' <? t) = false /\ (t <=? t') = true) /\
      (forall j t', (j < i)%nat -> ts !! j = Some (Some t') -> (t <? t') = true))).
  { destruct (hit_scan ray _ ts (infinity, None) Hall) as (st' & Hrun & Hleast & _ & Hwin).
    unfold Scene.hit. rewrite Hrun. cbn [bind].
    destruct Hwin as [->|(i & obj & t & Ho & Ht & -> & Hfin & Hfirst)]; cbn [fst snd] in *.
    - left. split; [exact Hleast | reflexivity].
    - right. exists i, obj, t. eexists.
      split; [exact Ho|]. split; [exact Ht|]. split; [exact Hfin|].
      split; [apply point_ok|]. split; [rewrite point_ok; reflexivity|].
      split; [|exact Hfirst].
      intros j t' Hj. split; [eapply Hleast, Hj|].
      apply leb_total; [eapply Hleast, Hj | eapply Hvalid, Ht | eapply Hvalid, Hj]. }
  split; [exact Hmain|].
  intros o1 o2 t1 t2 winner t Hobjs -> Hcase.
  destruct Hmain as [[Hnone _]|(i & obj & t' & p & Ho & Ht & _ & Hp & Hhit & Hleast & _)].
  - exfalso. destruct Hcase as [(Hlt & _)|(Hlt & _)]; apply ltb_infinity in Hlt.
    + rewrite (Hnone 0%nat t1) in Hlt by reflexivity. discriminate.
    + rewrite (Hnone 1%nat t2) in Hlt by reflexivity. discriminate.
  - rewrite Hobjs in Ho.
    destruct i as [|[|i]]; cbn in Ho, Ht; try discriminate;
      injection Ho as <-; injection Ht as <-.
    + destruct Hcase as [(Hlt & -> & ->)|(Hlt & -> & ->)].
      * exists p. split; assumption.
      * destruct (Hleast 1%nat t2 eq_refl) as [Hc _]. congruence.
    + destruct Hcase as [(Hlt & -> & ->)|(Hlt & -> & ->)].
      * destruct (Hleast 0%nat t1 eq_refl) as [Hc _]. congruence.
      * exists p. split; assumption.
Qed.

End HitFacts.

(** ** The shader *)

Section ShaderFacts.
Context `{Libm}.
Local Open Scope float_scope.

Lemma color_rec_step (n : nat) (self : Ray.t) (scene : Scene.t) (depth max_depth : Z) :
  Shader.color_rec (S n) self scene depth max_depth =
  (h <- Scene.hit scene self ;;
   shade self scene depth max_depth
     (fun r => Shader.color_rec n r scene (depth + 1) Shader.default_max_depth) h).
Proof.
  cbn [Shader.color_rec]. destruct (Scene.hit scene self) as [[[p obj]|]|e]; reflexivity.
Qed.

(** At or beyond the bound no frame below the current one is used. *)
Lemma color_rec_at_bound (n m : nat) (self : Ray.t) (scene : Scene.t) (depth max_depth : Z) :
  (max_depth <= depth)%Z ->
  Shader.color_rec (S n) self scene depth max_depth =
  Shader.color_rec (S m) self scene depth max_depth.
Proof.
  intros Hd. rewrite !color_rec_step.
  destruct (Scene.hit scene self) as [[[p obj]|]|e]; cbn [bind shade]; try reflexivity.
  assert (E : (depth >=? max_depth)%Z = true) by lia. rewrite E. reflexivity.
Qed.

(** [Ray.color] satisfies its recursive equation: the stack never runs out. *)
Lemma color_unfold (self : Ray.t) (scene : Scene.t) (depth max_depth : Z) :
  Shader.color self scene depth max_depth =
  (h <- Scene.hit scene self ;;
   shade self scene depth max_depth
     (fun r => Shader.color r scene (depth + 1) Shader.default_max_depth) h).
Proof.
  unfold Shader.color, Shader.frames.
  change (2 + Z.to_nat (2 - depth))%nat with (S (S (Z.to_nat (2 - depth)))).
  rewrite color_rec_step.
  destruct (Scene.hit scene self) as [[[p obj]|]|e]; cbn [bind shade]; try reflexivity.
  destruct (depth >=? max_depth)%Z; [reflexivity|].
  destruct (Shader.local_color self scene p obj) as [lc|e]; cbn [bind]; [|reflexivity].
  destruct (0 <? _); [|reflexivity].
  destruct (Shader.reflection_ray self p (fst lc)) as [ref_ray|e]; cbn [bind]; [|reflexivity].
  replace (Shader.color_rec (S (Z.to_nat (2 - depth))) ref_ray scene (depth + 1)
             Shader.default_max_depth)
    with (Shader.color_rec (2 + Z.to_nat (2 - (depth + 1))) ref_ray scene (depth + 1)
            Shader.default_max_depth); [reflexivity|].
  destruct (Z_le_gt_dec depth 1) as [Hle|Hgt].
  - replace (2 + Z.to_nat (2 - (depth + 1)))%nat with (S (Z.to_nat (2 - depth))) by lia.
    reflexivity.
  - change (2 + Z.to_nat (2 - (depth + 1)))%nat with (S (S (Z.to_nat (2 - (depth + 1))))).
    apply color_rec_at_bound. unfold Shader.default_max_depth. lia.
Qed.

Lemma background_sky (self : Ray.t) : Shader.background self = Ok (sky self).
Proof. reflexivity. Qed.

Lemma intersect_geometry (o o' : Sphere.t) (ray : Ray.t) :
  Sphere.center o = Sphere.center o' -> Sphere.radius o = Sphere.radius o' ->
  Sphere.intersect o ray = Sphere.intersect o' ray.
Proof. intros Hc Hr. unfold Sphere.intersect. rewrite Hc, Hr. reflexivity. Qed.

Lemma hit_step_eq (ray : Ray.t) (st : float * option Sphere.t) (obj : Sphere.t) :
  Scene.hit_step ray st obj =
  (t <- Sphere.intersect obj ray ;;
   match t with
   | Some t' => if t' <? fst st then Ok (t', Some obj) else Ok st
   | None => Ok st
   end).
Proof. reflexivity. Qed.

Lemma scan_geometry (ray : Ray.t) (objs objs' : list Sphere.t) :
  Forall2 (fun o o' => Sphere.center o = Sphere.center o' /\
                       Sphere.radius o = Sphere.radius o') objs objs' ->
  forall st st', same_choice st st' ->
    match for_each (Scene.hit_step ray) objs st, for_each (Scene.hit_step ray) objs' st' with
    | Ok s, Ok s' => same_choice s s'
    | Raise e, Raise e' => e = e'
    | _, _ => False
    end.
Proof.
  induction 1 as [|o o' objs objs' [Hc Hr] _ IH]; intros st st' Hst; cbn [for_each].
  - exact Hst.
  - rewrite !hit_step_eq, (intersect_geometry o o' ray Hc Hr).
    destruct (Sphere.intersect o' ray) as [[t|]|e]; cbn [bind].
    + destruct Hst as [Hfst Hsnd]. rewrite <- Hfst.
      destruct (t <? fst st); cbn [bind]; apply IH; split; cbn [fst snd]; try assumption;
        try reflexivity.
      split; discriminate.
    + apply IH, Hst.
    + reflexivity.
Qed.

Lemma hit_geometry (scene scene' : Scene.t) (ray : Ray.t) :
  same_geometry scene scene' ->
  match Scene.hit scene ray, Scene.hit scene' ray with
  | Ok None, Ok None => True
  | Ok (Some (p, _)), Ok (Some (p', _)) => p = p'
  | Raise e, Raise e' => e = e'
  | _, _ => False
  end.
Proof.
  intros Hg. unfold Scene.hit.
  pose proof (scan_geometry ray _ _ Hg (infinity, None) (infinity, None)) as Hscan.
  destruct (for_each _ (Scene.objects scene) _) as [[t o]|e],
           (for_each _ (Scene.objects scene') _) as [[t' o']|e']; cbn [bind snd fst].
  - destruct Hscan as [Ht Ho]; [split; reflexivity|]. cbn [fst snd] in *. subst t'.
    rewrite !point_ok.
    destruct o, o'; cbn [bind]; try reflexivity; try exact I.
    + destruct Ho as [_ Ho]. discriminate Ho. reflexivity.
    + destruct Ho as [Ho _]. discriminate Ho. reflexivity.
  - exfalso. apply Hscan. split; reflexivity.
  - exfalso. apply Hscan. split; reflexivity.
  - apply Hscan. split; reflexivity.
Qed.

(** C4. The scene is scanned before the depth is tested.  Whenever the
    scan returns, and it reports no hit for the ray or the depth has reached
    [max_depth], the shader returns the background colour
    [(1,1,1) * (1 - alpha) + (0.5,0.7,1.0) * alpha] with
    [alpha = 0.5 * (direction.y + 1)]; so does it in any scene with the same
    spheres, whatever its lights and materials.  Whenever the scan raises,
    the shader raises the same exception, at every depth and bound: the
    background is not returned then, not even at [depth >= max_depth]. *)
Theorem background_base_case (self : Ray.t) (scene : Scene.t) (depth max_depth : Z) :
  (forall h, Scene.hit scene self = Ok h ->
     h = None \/ (max_depth <= depth)%Z ->
     Shader.color self scene depth max_depth = Ok (sky self) /\
     (forall scene', same_geometry scene scene' ->
        Shader.color self scene' depth max_depth = Ok (sky self))) /\
  (forall e, Scene.hit scene self = Raise e ->
     Shader.color self scene depth max_depth = Raise e).
Proof.
  split; [|intros e Hraise; rewrite color_unfold, Hraise; reflexivity].
  intros h Hhit Hbase.
  assert (Hown : forall s h', Scene.hit s self = Ok h' ->
            (h' = None \/ (max_depth <= depth)%Z) ->
            Shader.color self s depth max_depth = Ok (sky self)).
  { intros s h' Hs Hb. rewrite color_unfold, Hs. cbn [bind].
    destruct Hb as [->|Hd]; [reflexivity|].
    destruct h' as [[p obj]|]; [|reflexivity]. cbn [shade].
    assert (E : (depth >=? max_depth)%Z = true) by lia. rewrite E. reflexivity. }
  split; [eapply Hown; eauto|].
  intros scene' Hg. pose proof (hit_geometry scene scene' self Hg) as Hsame.
  rewrite Hhit in Hsame.
  destruct (Scene.hit scene' self) as [h'|e] eqn:Hhit'.
  - eapply Hown; [exact Hhit'|].
    destruct Hbase as [->|Hd]; [|right; exact Hd].
    destruct h' as [[p' o']|]; [contradiction|left; reflexivity].
  - destruct h as [[p o]|]; contradiction.
Qed.

Lemma mix_color_blend (a b : Vector3.t) (t : float) :
  Shader.mix_color a b t = Ok (blend a b t).
Proof. reflexivity. Qed.

(** C5. At a resolved hit (the scene reports one and the depth is below
    [max_depth]) with local colour [local]: when the reflectivity is
    strictly positive the shader spawns the ray from
    [hit_point + 0.01 * normal] in direction [reflect(direction, normal)],
    evaluates it recursively at [depth + 1] and returns
    [(1 - reflectivity) * local + reflectivity * reflected]; when the
    reflectivity is 0 (or anything not above 0) it returns [local]. *)
Theorem reflection_blend (self : Ray.t) (scene : Scene.t) (depth max_depth : Z)
    (hit_point : Vector3.t) (obj : Sphere.t) (normal local : Vector3.t) :
  Scene.hit scene self = Ok (Some (hit_point, obj)) ->
  (depth < max_depth)%Z ->
  Shader.local_color self scene hit_point obj = Ok (normal, local) ->
  let k := Material.reflectivity (Sphere.material obj) in
  ((0 <? k) = true ->
   Shader.color self scene depth max_depth =
     (reflect_dir <- Vector3.reflect (Ray.direction self) normal ;;
      reflected <- Shader.color (Ray.mk (lifted hit_point normal) reflect_dir) scene
                     (depth + 1) Shader.default_max_depth ;;
      Ok (blend local reflected k))) /\
  ((0 <? k) = false -> Shader.color self scene depth max_depth = Ok local) /\
  ((k =? 0) = true -> Shader.color self scene depth max_depth = Ok local).
Proof.
  intros Hhit Hdepth Hlocal k.
  assert (E : (depth >=? max_depth)%Z = false) by lia.
  assert (Hoff : (0 <? k) = false -> Shader.color self scene depth max_depth = Ok local).
  { intros Hk. rewrite color_unfold, Hhit. cbn [bind shade]. rewrite E, Hlocal.
    cbn [bind fst snd]. fold k. rewrite Hk. reflexivity. }
  split; [|split].
  - intros Hk. rewrite color_unfold, Hhit. cbn [bind shade]. rewrite E, Hlocal.
    cbn [bind fst snd]. fold k. rewrite Hk.
    unfold Shader.reflection_ray.
    destruct (Vector3.reflect (Ray.direction self) normal) as [rd|e]; cbn [bind];
      [|reflexivity].
    change (Vector3.__mul__ normal (Vector3.Num Shader.epsilon))
      with (Ok (Vector3.mk (Vector3.x normal * 0.01) (Vector3.y normal * 0.01)
                  (Vector3.z normal * 0.01))).
    cbn [bind].
    change (Vector3.__add__ hit_point _) with (lifted hit_point normal).
    destruct (Shader.color _ scene (depth + 1) Shader.default_max_depth) as [rc|e];
      cbn [bind]; [|reflexivity].
    apply mix_color_blend.
  - exact Hoff.
  - intros Hk. apply Hoff, eqb_ltb_false, Hk.
Qed.

Lemma light_step_terms (plus : Vector3.t -> Vector3.t -> result Vector3.t)
    (hit_point normal view_dir : Vector3.t) (obj : Sphere.t) (color : Vector3.t)
    (light : Light.t) :
  Shader.light_step plus hit_point normal view_dir obj color light =
  (ds <- light_terms (Sphere.material obj) hit_point normal view_dir light ;;
   try_except (partial <- plus color (fst ds) ;; plus partial (snd ds)) TypeError (Ok color)).
Proof.
  unfold Shader.light_step, light_terms.
  destruct (Vector3.normalize _) as [light_dir|e]; cbn [bind]; [|reflexivity].
  cbn [Vector3.__mul__ bind].
  destruct (Vector3.reflect _ normal) as [reflect_dir|e]; cbn [bind]; [|reflexivity].
  destruct (Py.pow _ _) as [i_spec|e]; cbn [bind]; reflexivity.
Qed.

Lemma accumulate_sum (hit_point normal view_dir : Vector3.t) (obj : Sphere.t)
    (lights : list Light.t) :
  forall acc,
    Shader.accumulate Shader.vector_plus hit_point normal view_dir obj lights acc =
    sum_lights (Sphere.material obj) hit_point normal view_dir lights acc.
Proof.
  unfold Shader.accumulate, sum_lights.
  induction lights as [|light lights IH]; intros acc; cbn [for_each]; [reflexivity|].
  rewrite light_step_terms.
  destruct (light_terms _ hit_point normal view_dir light) as [[d sp]|e]; cbn [bind];
    [|reflexivity].
  apply IH.
Qed.

Lemma sum_lights_intensity (m : Material.t) (hit_point normal view_dir : Vector3.t)
    (lights : list Light.t) (f : Light.t -> float) :
  forall acc,
    sum_lights m hit_point normal view_dir
      (map (fun l => with_intensity l (f l)) lights) acc =
    sum_lights m hit_point normal view_dir lights acc.
Proof.
  unfold sum_lights.
  induction lights as [|light lights IH]; intros acc; cbn [map for_each]; [reflexivity|].
  change (light_terms m hit_point normal view_dir (with_intensity light (f light)))
    with (light_terms m hit_point normal view_dir light).
  destruct (light_terms m hit_point normal view_dir light) as [ds|e]; cbn [bind];
    [apply IH|reflexivity].
Qed.

(** C3. At a resolved hit the accumulated local colour is the sum, over the
    lights of the scene in their order, of the diffuse term
    [diffuse_color (.) light.color * max(normal . light_dir, 0)] and the
    specular term
    [specular_color (.) light.color * max(reflect_dir . view_dir, 0) ** shininess],
    with [light_dir = normalize(light.position - hit_point)], [view_dir] the
    negated normalised ray direction and
    [reflect_dir = reflect(-view_dir, normal)].  The sum reads the lights
    only: the other spheres of the scene and the intensities of the lights
    do not enter it. *)
Theorem local_illumination (self : Ray.t) (scene : Scene.t) (depth max_depth : Z)
    (hit_point : Vector3.t) (obj : Sphere.t) :
  Scene.hit scene self = Ok (Some (hit_point, obj)) ->
  (depth < max_depth)%Z ->
  let lit (lights : list Light.t) :=
    normal <- Sphere.normal_vector obj hit_point ;;
    unit_dir <- Vector3.normalize (Ray.direction self) ;;
    local <- sum_lights (Sphere.material obj) hit_point normal
               (Vector3.__neg__ unit_dir) lights (Vector3.mk 0 0 0) ;;
    Ok (normal, local) in
  Shader.local_color self scene hit_point obj = lit (Scene.lighting scene) /\
  Shader.color self scene depth max_depth =
    shade self scene depth max_depth
      (fun r => Shader.color r scene (depth + 1) Shader.default_max_depth)
      (Some (hit_point, obj)) /\
  (forall objects' f,
     Shader.local_color self
       (Scene.mk (map (fun l => with_intensity l (f l)) (Scene.lighting scene)) objects')
       hit_point obj = lit (Scene.lighting scene)).
Proof.
  intros Hhit Hdepth lit.
  assert (Hlocal : forall s, Shader.local_color self s hit_point obj = lit (Scene.lighting s)).
  { intros s. unfold Shader.local_color, lit.
    destruct (Sphere.normal_vector obj hit_point) as [normal|e]; cbn [bind]; [|reflexivity].
    destruct (Vector3.normalize (Ray.direction self)) as [unit_dir|e]; cbn [bind];
      [|reflexivity].
    rewrite accumulate_sum. reflexivity. }
  split; [apply Hlocal|]. split.
  - rewrite color_unfold, Hhit. reflexivity.
  - intros objects' f. rewrite Hlocal. cbn [Scene.lighting]. unfold lit.
    destruct (Sphere.normal_vector obj hit_point) as [normal|e]; cbn [bind]; [|reflexivity].
    destruct (Vector3.normalize (Ray.direction self)) as [unit_dir|e]; cbn [bind];
      [|reflexivity].
    rewrite sum_lights_intensity. reflexivity.
Qed.

(** C8. In the loop over the lights, when the guarded sum
    [color + diffuse + specular] of one light raises [TypeError], the
    handler keeps the colour accumulated so far, and the loop goes on with
    the remaining lights as if that light were absent: nothing propagates. *)
Theorem type_error_drops_light (plus : Vector3.t -> Vector3.t -> result Vector3.t)
    (hit_point normal view_dir : Vector3.t) (obj : Sphere.t) (color : Vector3.t)
    (light : Light.t) (rest : list Light.t) (diffuse specular : Vector3.t) :
  light_terms (Sphere.material obj) hit_point normal view_dir light = Ok (diffuse, specular) ->
  (partial <- plus color diffuse ;; plus partial specular) = Raise TypeError ->
  Shader.light_step plus hit_point normal view_dir obj color light = Ok color /\
  Shader.accumulate plus hit_point normal view_dir obj (light :: rest) color =
    Shader.accumulate plus hit_point normal view_dir obj rest color.
Proof.
  intros Hterms Hsum.
  assert (Hstep : Shader.light_step plus hit_point normal view_dir obj color light = Ok color).
  { rewrite light_step_terms, Hterms. cbn [bind fst snd]. rewrite Hsum. reflexivity. }
  split; [exact Hstep|].
  unfold Shader.accumulate. cbn [for_each]. rewrite Hstep. reflexivity.
Qed.

(** X15. The supplied [max_depth] is consulted by the outermost call
    only: two bounds that both exceed the depth give the same colour. *)
Lemma supplied_bound_only_at_top (self : Ray.t) (scene : Scene.t) (depth m1 m2 : Z) :
  (depth < m1)%Z -> (depth < m2)%Z ->
  Shader.color self scene depth m1 = Shader.color self scene depth m2.
Proof.
  intros H1 H2. rewrite !color_unfold.
  destruct (Scene.hit scene self) as [[[p obj]|]|e]; cbn [bind shade]; try reflexivity.
  assert (E1 : (depth >=? m1)%Z = false) by lia.
  assert (E2 : (depth >=? m2)%Z = false) by lia.
  rewrite E1, E2. reflexivity.
Qed.

End ShaderFacts.

(** ** The renderer *)

Section RendererFacts.
Context `{Libm}.
Local Open Scope float_scope.

Lemma zeros_shaped (width height : nat) : shaped (Renderer.zeros height width) width height.
Proof.
  unfold Renderer.zeros. split.
  - apply length_replicate.
  - intros y row Hrow. apply lookup_replicate in Hrow as [-> _]. apply length_replicate.
Qed.

Lemma set_pixel_spec (buf : Renderer.buffer) (width height y x : nat) (v : Renderer.pixel) :
  shaped buf width height -> (y < height)%nat -> (x < width)%nat ->
  exists buf',
    Renderer.set_pixel buf y x v = Ok buf' /\ shaped buf' width height /\
    pixel_at buf' y x = Some v /\
    (forall y' x', (y', x') <> (y, x) -> pixel_at buf' y' x' = pixel_at buf y' x').
Proof.
  unfold Renderer.set_pixel, pixel_at, shaped, Renderer.buffer, Renderer.pixel in *.
  intros [Hlen Hrows] Hy Hx.
  destruct (lookup_lt_is_Some_2 buf y) as [row Hrow]; [lia|].
  rewrite Hrow. pose proof (Hrows y row Hrow) as Hw.
  assert (E : (x <? length row)%nat = true) by (apply Nat.ltb_lt; lia).
  rewrite E. eexists. split; [reflexivity|]. split; [|split].
  - split; [rewrite length_insert; exact Hlen|].
    intros y' row' Hrow'. destruct (decide (y = y')) as [<-|Hne].
    + rewrite list_lookup_insert_eq in Hrow' by lia. injection Hrow' as <-.
      rewrite length_insert. exact Hw.
    + rewrite list_lookup_insert_ne in Hrow' by exact Hne. eapply Hrows, Hrow'.
  - unfold pixel_at. rewrite list_lookup_insert_eq by lia.
    apply list_lookup_insert_eq. lia.
  - intros y' x' Hne. unfold pixel_at. destruct (decide (y = y')) as [<-|Hy'].
    + rewrite list_lookup_insert_eq by lia. rewrite Hrow.
      apply list_lookup_insert_ne. congruence.
    + rewrite list_lookup_insert_ne by exact Hy'. reflexivity.
Qed.

(** One row of the loop nest, for any way [px] of computing a pixel. *)
Lemma row_loop (px : nat -> result Renderer.pixel) (width height y : nat) :
  (y < height)%nat ->
  forall n a buf, shaped buf width height -> (a + n <= width)%nat ->
    match for_each (fun buf x => value <- px x ;; Renderer.set_pixel buf y x value)
            (seq a n) buf with
    | Ok buf' =>
        shaped buf' width height /\
        (forall x, (a <= x < a + n)%nat ->
           exists v, px x = Ok v /\ pixel_at buf' y x = Some v) /\
        (forall y' x, ~ (y' = y /\ (a <= x < a + n)%nat) ->
           pixel_at buf' y' x = pixel_at buf y' x)
    | Raise e => exists x, (a <= x < a + n)%nat /\ px x = Raise e
    end.
Proof.
  intros Hy. induction n as [|n IH]; intros a buf Hbuf Han; cbn [seq for_each].
  - split; [exact Hbuf|]. split; [intros x Hx; lia | reflexivity].
  - destruct (px a) as [v|e] eqn:Hpx; cbn [bind].
    + destruct (set_pixel_spec buf width height y a v Hbuf Hy) as (buf1 & -> & Hb1 & Hset & Hframe);
        [lia|]. cbn [bind].
      specialize (IH (S a) buf1 Hb1). 
      destruct (for_each _ (seq (S a) n) buf1) as [buf'|e].
      * destruct IH as (Hb' & Hin & Hout); [lia|]. split; [exact Hb'|]. split.
        -- intros x Hx. destruct (decide (x = a)) as [->|Hne].
           ++ exists v. split; [exact Hpx|]. rewrite Hout by lia. exact Hset.
           ++ apply Hin. lia.
        -- intros y' x Hn. rewrite Hout by lia. apply Hframe.
           intros Heq. injection Heq as -> ->. apply Hn. split; [reflexivity|lia].
      * destruct IH as (x & Hx & Hraise); [lia|]. exists x. split; [lia|exact Hraise].
    + exists a. split; [lia|exact Hpx].
Qed.

(** The rows, one after the other. *)
Lemma rows_loop (px : nat -> nat -> result Renderer.pixel) (width height : nat) :
  forall n a buf, shaped buf width height -> (a + n <= height)%nat ->
    match for_each (fun buf y =>
                      for_each (fun buf x => value <- px x y ;; Renderer.set_pixel buf y x value)
                        (seq 0 width) buf)
            (seq a n) buf with
    | Ok buf' =>
        shaped buf' width height /\
        (forall x y, (x < width)%nat -> (a <= y < a + n)%nat ->
           exists v, px x y = Ok v /\ pixel_at buf' y x = Some v) /\
        (forall y x, ~ (a <= y < a + n)%nat -> pixel_at buf' y x = pixel_at buf y x)
    | Raise e => exists x y, (x < width)%nat /\ (a <= y < a + n)%nat /\ px x y = Raise e
    end.
Proof.
  induction n as [|n IH]; intros a buf Hbuf Han; cbn [seq for_each].
  - split; [exact Hbuf|]. split; [intros x y _ Hy; lia | reflexivity].
  - pose proof (row_loop (fun x => px x a) width height a ltac:(lia) width 0%nat buf Hbuf
                  ltac:(lia)) as Hrow.
    destruct (for_each _ (seq 0 width) buf) as [buf1|e]; cbn [bind].
    + destruct Hrow as (Hb1 & Hin1 & Hout1).
      specialize (IH (S a) buf1 Hb1).
      destruct (for_each _ (seq (S a) n) buf1) as [buf'|e].
      * destruct IH as (Hb' & Hin & Hout); [lia|]. split; [exact Hb'|]. split.
        -- intros x y Hx Hy. destruct (decide (y = a)) as [->|Hne].
           ++ destruct (Hin1 x) as (v & Hv & Hat); [lia|].
              exists v. split; [exact Hv|]. rewrite Hout by lia. exact Hat.
           ++ apply Hin; [exact Hx|lia].
        -- intros y x Hn. rewrite Hout by lia. apply Hout1. lia.
      * destruct IH as (x & y & Hx & Hy & Hraise); [lia|].
        exists x, y. split; [exact Hx|]. split; [lia|exact Hraise].
    + destruct Hrow as (x & Hx & Hraise). exists x, a.
      split; [lia|]. split; [lia|exact Hraise].
Qed.

Lemma render_spec (camera : Camera.t) (scene : Scene.t) (width height : nat) :
  match Renderer.render camera scene width height with
  | Ok buf =>
      shaped buf width height /\
      (forall x y, (x < width)%nat -> (y < height)%nat ->
         exists v, Renderer.render_pixel camera scene width height x y = Ok v /\
                   pixel_at buf y x = Some v)
  | Raise e =>
      exists x y, (x < width)%nat /\ (y < height)%nat /\
                  Renderer.render_pixel camera scene width height x y = Raise e
  end.
Proof.
  pose proof (rows_loop (Renderer.render_pixel camera scene width height) width height
                height 0%nat (Renderer.zeros height width) (zeros_shaped width height)
                ltac:(lia)) as Hloop.
  unfold Renderer.render, Renderer.render_row.
  destruct (for_each _ (seq 0 height) (Renderer.zeros height width)) as [buf|e].
  - destruct Hloop as (Hshape & Hin & _). split; [exact Hshape|].
    intros x y Hx Hy. apply Hin; [exact Hx|lia].
  - destruct Hloop as (x & y & Hx & Hy & Hraise). exists x, y.
    split; [exact Hx|]. split; [lia|exact Hraise].
Qed.

Lemma rgb_channels (v : Vector3.t) :
  Vector3.rgb v = (channel (Vector3.x v), channel (Vector3.y v), channel (Vector3.z v)).
Proof. reflexivity. Qed.

Lemma itruediv_quarter (v : Vector3.t) : Vector3.__itruediv__ v 4 = Ok (quarter v).
Proof. reflexivity. Qed.

Lemma render_pixel_eq (camera : Camera.t) (scene : Scene.t) (width height x y : nat) :
  Renderer.render_pixel camera scene width height x y =
  (c00 <- Renderer.sample_color camera scene width height x y 0 0 ;;
   c10 <- Renderer.sample_color camera scene width height x y 1 0 ;;
   c01 <- Renderer.sample_color camera scene width height x y 0 1 ;;
   c11 <- Renderer.sample_color camera scene width height x y 1 1 ;;
   Ok (Vector3.rgb (quarter (sum4 c00 c10 c01 c11)))).
Proof.
  unfold Renderer.render_pixel, Renderer.sample_step.
  change (seq 0 Renderer.sample) with [0%nat; 1%nat]. cbn [for_each].
  change (Py.float_of_int (Z.of_nat Renderer.sample ^ 2)) with (Ok (A:=float) 4).
  destruct (Renderer.sample_color camera scene width height x y 0 0) as [c00|e];
    cbn [bind]; [|reflexivity].
  destruct (Renderer.sample_color camera scene width height x y 1 0) as [c10|e];
    cbn [bind]; [|reflexivity].
  destruct (Renderer.sample_color camera scene width height x y 0 1) as [c01|e];
    cbn [bind]; [|reflexivity].
  destruct (Renderer.sample_color camera scene width height x y 1 1) as [c11|e];
    cbn [bind]; [|reflexivity].
  rewrite itruediv_quarter. reflexivity.
Qed.

Lemma sample_coordinates_eq (width height x y sx sy : nat) :
  (sx < 2)%nat -> (sy < 2)%nat ->
  Renderer.sample_coordinates width height x y sx sy =
  (xf <- Py.float_of_int (Z.of_nat x) ;;
   wf <- Py.float_of_int (Z.of_nat width) ;;
   u <- Py.div (xf + offset sx) wf ;;
   yf <- Py.float_of_int (Z.of_nat y) ;;
   hf <- Py.float_of_int (Z.of_nat height) ;;
   v <- Py.div (yf + offset sy) hf ;;
   Ok (u, v)).
Proof.
  intros Hsx Hsy. unfold Renderer.sample_coordinates.
  change (Py.float_of_int (Z.of_nat Renderer.sample)) with (Ok (A:=float) 2).
  assert (Hs : forall s, (s < 2)%nat -> Py.float_of_int (Z.of_nat s) = Ok (offset s * 2 - 0.5)).
  { intros [|[|s]] Hlt; [reflexivity|reflexivity|lia]. }
  rewrite (Hs sx Hsx), (Hs sy Hsy). cbn [bind].
  assert (Ho : forall s, (s < 2)%nat -> Py.div (offset s * 2 - 0.5 + 0.5) 2 = Ok (offset s)).
  { intros [|[|s]] Hlt; [reflexivity|reflexivity|lia]. }
  rewrite (Ho sx Hsx). cbn [bind]. rewrite (Ho sy Hsy). cbn [bind].
  destruct (Py.float_of_int (Z.of_nat x)) as [xf|e]; cbn [bind]; [|reflexivity].
  destruct (Py.float_of_int (Z.of_nat width)) as [wf|e]; cbn [bind]; [|reflexivity].
  reflexivity.
Qed.

Lemma render_returns (camera : Camera.t) (scene : Scene.t) (width height : nat) :
  (forall x y, (x < width)%nat -> (y < height)%nat ->
     is_ok (Renderer.render_pixel camera scene width height x y) = true) ->
  is_ok (Renderer.render camera scene width height) = true.
Proof.
  intros Hpix. pose proof (render_spec camera scene width height) as Hspec.
  destruct (Renderer.render camera scene width height) as [buf|e]; [reflexivity|].
  destruct Hspec as (x & y & Hx & Hy & Hraise).
  specialize (Hpix x y Hx Hy). rewrite Hraise in Hpix. discriminate.
Qed.

Lemma channel_range (c : float) : (0 <= channel c < 256)%Z.
Proof. unfold channel, Py.uint8. apply Z.mod_pos_bound. lia. Qed.

Lemma channel_inside (c : float) :
  (0 <? c) = true -> (c <? 1) = true -> channel c = Py.uint8 (c * 255).
Proof. intros H0 H1. unfold channel, Py.max, Py.min. rewrite H1, H0. reflexivity. Qed.

Lemma channel_above (c : float) : (1 <? c) = true -> channel c = 255%Z.
Proof.
  intros H1. unfold channel, Py.max, Py.min. rewrite (ltb_asym _ _ H1). reflexivity.
Qed.

Lemma channel_below (c : float) : (c <? 0) = true -> channel c = 0%Z.
Proof.
  intros H0. unfold channel, Py.max, Py.min.
  rewrite (ltb_trans c 0 1 H0 eq_refl), (ltb_asym _ _ H0). reflexivity.
Qed.

(** C7. In the buffer that the renderer returns, row [y], column [x] holds
    the 8-bit conversion (each channel clamped to [0, 1], scaled by 255 and
    truncated, not rounded: 0.999 gives 254) of the sum of the four
    sub-sample colours divided by 4, the sub-samples being [sx, sy] in
    [{0, 1}] at [u = (x + (sx + 0.5) / 2) / width],
    [v = (y + (sy + 0.5) / 2) / height], each the shader's colour (depth 2,
    default bound) of the camera ray for [(u, v)].  The buffer has [height]
    rows of [width] pixels; the renderer returns it whenever no pixel's
    computation raises; and [render_scene] is this renderer at 1000 by 800
    on its own camera and scene. *)
Theorem render_stores_averages (camera : Camera.t) (scene : Scene.t) (width height : nat) :
  (forall buf, Renderer.render camera scene width height = Ok buf ->
     shaped buf width height /\
     forall x y, (x < width)%nat -> (y < height)%nat ->
       exists c00 c10 c01 c11,
         Renderer.sample_color camera scene width height x y 0 0 = Ok c00 /\
         Renderer.sample_color camera scene width height x y 1 0 = Ok c10 /\
         Renderer.sample_color camera scene width height x y 0 1 = Ok c01 /\
         Renderer.sample_color camera scene width height x y 1 1 = Ok c11 /\
         pixel_at buf y x =
           Some (channel (Vector3.x (quarter (sum4 c00 c10 c01 c11))),
                 channel (Vector3.y (quarter (sum4 c00 c10 c01 c11))),
                 channel (Vector3.z (quarter (sum4 c00 c10 c01 c11))))) /\
  ((forall x y, (x < width)%nat -> (y < height)%nat ->
      is_ok (Renderer.render_pixel camera scene width height x y) = true) ->
   is_ok (Renderer.render camera scene width height) = true) /\
  (forall x y sx sy, (sx < 2)%nat -> (sy < 2)%nat ->
     Renderer.sample_color camera scene width height x y sx sy =
       (xf <- Py.float_of_int (Z.of_nat x) ;;
        wf <- Py.float_of_int (Z.of_nat width) ;;
        u <- Py.div (xf + offset sx) wf ;;
        yf <- Py.float_of_int (Z.of_nat y) ;;
        hf <- Py.float_of_int (Z.of_nat height) ;;
        v <- Py.div (yf + offset sy) hf ;;
        ray <- Camera.get_ray camera u v ;;
        Shader.color ray scene 2 Shader.default_max_depth)) /\
  (forall c,
     (0 <= channel c < 256)%Z /\
     ((0 <? c) = true -> (c <? 1) = true -> channel c = (Py.trunc (c * 255) mod 256)%Z) /\
     ((1 <? c) = true -> channel c = 255%Z) /\
     ((c <? 0) = true -> channel c = 0%Z)) /\
  channel 0.999 = 254%Z /\
  (forall image, Renderer.render_scene = Ok image ->
     exists cam,
       Camera.__init__ (Vector3.mk 0 0 0) (Vector3.mk 0 0 5) 75 1000 800 = Ok cam /\
       Renderer.render cam Renderer.default_scene 1000 800 = Ok image).
Proof.
  split; [|split; [|split; [|split; [|split]]]].
  - intros buf Hrender. pose proof (render_spec camera scene width height) as Hspec.
    rewrite Hrender in Hspec. destruct Hspec as [Hshape Hpix].
    split; [exact Hshape|].
    intros x y Hx Hy. destruct (Hpix x y Hx Hy) as (v & Hv & Hat).
    rewrite render_pixel_eq in Hv.
    apply bind_ok in Hv as (c00 & H00 & Hv). apply bind_ok in Hv as (c10 & H10 & Hv).
    apply bind_ok in Hv as (c01 & H01 & Hv). apply bind_ok in Hv as (c11 & H11 & Hv).
    injection Hv as <-. exists c00, c10, c01, c11. rewrite Hat, rgb_channels. tauto.
  - apply render_returns.
  - intros x y sx sy Hsx Hsy. unfold Renderer.sample_color.
    rewrite sample_coordinates_eq by assumption.
    repeat match goal with
           | |- context [Py.float_of_int ?n] =>
               destruct (Py.float_of_int n) as [?|?]; cbn [bind]; [|reflexivity]
           | |- context [Py.div ?n ?d] =>
               destruct (Py.div n d) as [?|?]; cbn [bind fst snd]; [|reflexivity]
           end.
    reflexivity.
  - intros c. split; [apply channel_range|]. split; [apply channel_inside|].
    split; [apply channel_above|apply channel_below].
  - vm_compute. reflexivity.
  - intros image Himage. unfold Renderer.render_scene in Himage.
    apply bind_ok in Himage as (cam & Hcam & Hrun). exists cam. split; assumption.
Qed.

End RendererFacts.

(** ** Vector3 objects: which methods write to the store *)

Section ObjectFacts.
Context `{Libm}.
Local Open Scope float_scope.

Lemma alloc_keeps (h : VectorObject.heap) (v w : Vector3.t) (a : VectorObject.addr) :
  h !! a = Some w -> fst (VectorObject.alloc h v) !! a = Some w.
Proof.
  unfold VectorObject.alloc, VectorObject.heap, VectorObject.addr in *.
  intros Ha. cbn [fst].
  rewrite lookup_insert_ne; [exact Ha|].
  intros <-. pose proof (is_fresh (dom h)) as Hfresh.
  apply Hfresh, elem_of_dom. eauto.
Qed.

Lemma alloc_new (h : VectorObject.heap) (v : Vector3.t) :
  h !! snd (VectorObject.alloc h v) = None /\
  fst (VectorObject.alloc h v) !! snd (VectorObject.alloc h v) = Some v.
Proof.
  unfold VectorObject.alloc, VectorObject.heap, VectorObject.addr in *.
  cbn [fst snd]. split.
  - apply not_elem_of_dom, is_fresh.
  - apply lookup_insert_eq.
Qed.

(** A method that ends in [Vector3(...)]. *)
Lemma new_spec (h h' : VectorObject.heap) (v : Vector3.t) (r : VectorObject.ret) :
  VectorObject.new h v = Ok (h', r) ->
  (forall a w, h !! a = Some w -> h' !! a = Some w) /\
  exists a, r = VectorObject.RObj a /\ h !! a = None /\ h' !! a = Some v.
Proof.
  unfold VectorObject.new. intros Hnew. injection Hnew as <- <-. split.
  - intros a w. apply alloc_keeps.
  - eexists. split; [reflexivity|]. apply alloc_new.
Qed.

Lemma new_preserves (h h' : VectorObject.heap) (v : Vector3.t) (r : VectorObject.ret) :
  VectorObject.new h v = Ok (h', r) -> preserves h h' r.
Proof.
  intros Hnew. apply new_spec in Hnew as (Hkeep & a & -> & Hold & Hnew).
  split; [exact Hkeep|]. intros a' Ha'. injection Ha' as <-. split; [exact Hold|eauto].
Qed.

Lemma same_preserves (h : VectorObject.heap) (r : VectorObject.ret) :
  (forall a, r <> VectorObject.RObj a) -> preserves h h r.
Proof. intros Hr. split; [tauto|]. intros a Ha. destruct (Hr a Ha). Qed.

(** C9 (as amended). Every operation of the value type except the in-place
    division leaves the components of all objects in the store, its operands
    among them, as they were, and a vector it returns is a new object.  The
    in-place division [/=] overwrites the components of its receiver with
    the quotients and returns the receiver; the other objects stay. *)
Theorem only_in_place_division_writes (h h' : VectorObject.heap)
    (m : VectorObject.method) (self : VectorObject.addr) (arg : VectorObject.value)
    (r : VectorObject.ret) :
  VectorObject.call h m self arg = Ok (h', r) ->
  (VectorObject.in_place m = false -> preserves h h' r) /\
  (VectorObject.in_place m = true ->
   exists v s,
     h !! self = Some v /\ arg = VectorObject.VNum s /\ r = VectorObject.RObj self /\
     h' !! self = Some (Vector3.mk (Vector3.x v / s) (Vector3.y v / s) (Vector3.z v / s)) /\
     forall a, a <> self -> h' !! a = h !! a).
Proof.
  unfold VectorObject.call. intros Hcall.
  apply bind_ok in Hcall as (v & Hself & Hcall).
  unfold VectorObject.attributes, VectorObject.operand_of in *.
  unfold VectorObject.heap, VectorObject.addr in *.
  destruct (h !! self) as [v0|] eqn:Hv; [|discriminate Hself]. injection Hself as ->.
  split.
  - intros Hpure.
    destruct m; try discriminate Hpure;
      repeat match type of Hcall with
             | (_ <- _ ;; _) = Ok _ => apply bind_ok in Hcall as (? & ? & Hcall)
             | match ?a with _ => _ end = Ok _ => destruct a; try discriminate Hcall
             end;
      try (eapply new_preserves; eassumption);
      try (injection Hcall as <- <-; apply same_preserves; intros a; discriminate).
    (* reflect builds two objects *)
    apply new_spec in Hcall as (Hkeep & a & -> & Hold & Hnew).
    split.
    + intros a' w Ha'. apply Hkeep, alloc_keeps, Ha'.
    + intros a' Ha'. injection Ha' as <-. split; [|eauto].
      destruct (h !! a) as [w|] eqn:Ha; [|exact Ha].
      rewrite (alloc_keeps h _ w a Ha) in Hold. discriminate.
  - intros Hin. destruct m; try discriminate Hin.
    destruct arg as [a|s|]; try discriminate Hcall.
    apply bind_ok in Hcall as (q & Hq & Hcall). injection Hcall as <- <-.
    unfold Vector3.__itruediv__ in Hq.
    destruct (s =? 0) eqn:Hs; [discriminate|].
    unfold Py.div in Hq. rewrite Hs in Hq. cbn [bind] in Hq. injection Hq as <-.
    exists v, s. split; [reflexivity|]. split; [reflexivity|]. split; [reflexivity|].
    split; [apply lookup_insert_eq|].
    intros a Ha. apply lookup_insert_ne. congruence.
Qed.

End ObjectFacts.

(** ** Degenerate rays: the unguarded division in Sphere.intersect *)

Section DivisionFacts.
Context `{Libm}.
Local Open Scope float_scope.

(** [x ** 2]. *)
Lemma pow2_eq (x : float) :
  Py.pow x 2 =
  if is_nan x then Ok x
  else if is_infinity x then Ok (abs x)
  else if x =? 0 then Ok 0
  else
    let av := if x <? 0 then - x else x in
    if av =? 1 then Ok 1
    else
      let ix := libm_pow av 2 in
      if is_infinity ix then Raise OverflowError else Ok ix.
Proof.
  unfold Py.pow.
  change (2 =? 0) with false. change (is_nan 2) with false.
  change (is_infinity 2) with false. change (0 <? 2) with true.
  change (2 <? 0) with false.
  replace (Py.is_odd_integer 2) with false by (vm_compute; reflexivity).
  replace (Py.is_integer 2) with true by (vm_compute; reflexivity).
  cbn [negb andb]. rewrite !andb_false_r.
  destruct (is_nan x); [reflexivity|].
  destruct (is_infinity x); [reflexivity|].
  destruct (x =? 0); [reflexivity|].
  reflexivity.
Qed.

Lemma pow2_no_zero_division (x : float) : raises_zero_division (Py.pow x 2) = false.
Proof.
  rewrite pow2_eq.
  destruct (is_nan x); [reflexivity|]. destruct (is_infinity x); [reflexivity|].
  destruct (x =? 0); [reflexivity|]. cbv zeta.
  destruct (_ =? 1); [reflexivity|]. destruct (is_infinity _); reflexivity.
Qed.

Lemma pow2_zero_or_nan (b : float) :
  zero_or_nan b = true -> exists b2, Py.pow b 2 = Ok b2 /\ zero_or_nan b2 = true.
Proof.
  intros Hb. rewrite pow2_eq.
  destruct (zero_or_nan_cases b Hb) as [Hn|(Hn & Hz & Hi)].
  - rewrite Hn. exists b. split; [reflexivity|exact Hb].
  - rewrite Hn, Hi, Hz. exists 0. split; reflexivity.
Qed.

Lemma discriminant_no_zero_division (self : Sphere.t) (ray : Ray.t) :
  raises_zero_division (Sphere.discriminant self ray) = false.
Proof.
  unfold Sphere.discriminant, Sphere.coeff_c.
  pose proof (pow2_no_zero_division (Sphere.radius self)) as Hr.
  destruct (Py.pow (Sphere.radius self) 2) as [r2|e]; cbn [bind]; [|exact Hr].
  pose proof (pow2_no_zero_division (Sphere.coeff_b self ray)) as Hb.
  destruct (Py.pow (Sphere.coeff_b self ray) 2) as [b2|e]; cbn [bind]; [reflexivity|exact Hb].
Qed.

(** C10 (as amended). The two divisions by [2 * a], [a = direction .
    direction], are not guarded: past a discriminant that is not negative,
    a zero divisor makes the root computation fail with a division by zero,
    and a nonzero divisor rules that failure out.  A ray whose direction is
    the zero vector always ends so when [radius ** 2] does not overflow: its
    discriminant is a zero or NaN, hence not negative, and the divisor is
    zero. *)
Theorem intersect_unguarded_division (self : Sphere.t) (ray : Ray.t) :
  (forall d, Sphere.discriminant self ray = Ok d -> (d <? 0) = false ->
     (2 * Sphere.coeff_a ray =? 0) = true ->
     Sphere.intersect self ray = Raise ZeroDivisionError) /\
  ((2 * Sphere.coeff_a ray =? 0) = false ->
     raises_zero_division (Sphere.intersect self ray) = false) /\
  ((Vector3.x (Ray.direction ray) =? 0) = true ->
   (Vector3.y (Ray.direction ray) =? 0) = true ->
   (Vector3.z (Ray.direction ray) =? 0) = true ->
   forall r2, Py.pow (Sphere.radius self) 2 = Ok r2 ->
   exists d, Sphere.discriminant self ray = Ok d /\ zero_or_nan d = true /\
             (d <? 0) = false /\
             (2 * Sphere.coeff_a ray =? 0) = true /\
             Sphere.intersect self ray = Raise ZeroDivisionError).
Proof.
  assert (Hzero : forall d, Sphere.discriminant self ray = Ok d -> (d <? 0) = false ->
     (2 * Sphere.coeff_a ray =? 0) = true ->
     Sphere.intersect self ray = Raise ZeroDivisionError).
  { intros d Hd Hneg Ha. rewrite intersect_unfold, Hd. cbn [bind]. rewrite Hneg.
    unfold Sphere.roots. rewrite (sqrt_guarded d Hneg). cbn [bind].
    unfold Py.div. rewrite Ha. reflexivity. }
  split; [exact Hzero|]. split.
  - intros Ha. rewrite intersect_unfold.
    pose proof (discriminant_no_zero_division self ray) as Hd.
    destruct (Sphere.discriminant self ray) as [d|e]; cbn [bind]; [|exact Hd].
    destruct (d <? 0) eqn:Hneg; [reflexivity|].
    unfold Sphere.roots. rewrite (sqrt_guarded d Hneg). cbn [bind].
    unfold Py.div. rewrite Ha. cbn [bind fst snd].
    destruct (0.001 <? _); [reflexivity|]. destruct (0.001 <? _); reflexivity.
  - intros Hx Hy Hz r2 Hr2.
    apply eqb_zero in Hx, Hy, Hz.
    assert (Ha : sf_zero (Prim2SF (Sphere.coeff_a ray)) = true).
    { unfold Sphere.coeff_a, Vector3.dot. cbv zeta.
      repeat apply add_zero_zero; apply mul_zero_zero; assumption. }
    assert (Hb : zero_or_nan (Sphere.coeff_b self ray) = true).
    { unfold Sphere.coeff_b, Vector3.dot. cbv zeta.
      apply mul_zero_or_nan_r.
      repeat apply add_zero_or_nan; apply mul_zero_or_nan_r, zero_is_zero_or_nan;
        assumption. }
    destruct (pow2_zero_or_nan _ Hb) as (b2 & Hb2 & Hb2z).
    assert (H2a : (2 * Sphere.coeff_a ray =? 0) = true).
    { apply eqb_zero, mul_number_zero; [reflexivity|exact Ha]. }
    eexists. split; [|split; [|split; [|split; [exact H2a|]]]].
    + unfold Sphere.discriminant, Sphere.coeff_c. rewrite Hr2. cbn [bind].
      rewrite Hb2. cbn [bind]. reflexivity.
    + apply sub_zero_or_nan; [exact Hb2z|].
      apply mul_zero_or_nan_l, zero_is_zero_or_nan, mul_number_zero; [reflexivity|exact Ha].
    + apply zero_or_nan_not_negative, sub_zero_or_nan; [exact Hb2z|].
      apply mul_zero_or_nan_l, zero_is_zero_or_nan, mul_number_zero; [reflexivity|exact Ha].
    + eapply Hzero; [| |exact H2a].
      * unfold Sphere.discriminant, Sphere.coeff_c. rewrite Hr2. cbn [bind].
        rewrite Hb2. cbn [bind]. reflexivity.
      * apply zero_or_nan_not_negative, sub_zero_or_nan; [exact Hb2z|].
        apply mul_zero_or_nan_l, zero_is_zero_or_nan, mul_number_zero; [reflexivity|exact Ha].
Qed.

End DivisionFacts.

(** ** Signs, commutation and cancellation of the float operations *)

Section MoreFloatFacts.
Local Open Scope float_scope.

Lemma Prim2SF_inj (a b : float) : Prim2SF a = Prim2SF b -> a = b.
Proof. intros E. rewrite <- (SF2Prim_Prim2SF a), <- (SF2Prim_Prim2SF b), E. reflexivity. Qed.

Lemma SFmul_comm a b : SFmul prec emax a b = SFmul prec emax b a.
Proof.
  destruct a as [sa|sa| |sa ma ea], b as [sb|sb| |sb mb eb]; cbn;
    try rewrite (xorb_comm sa sb); try reflexivity.
  rewrite (Pos.mul_comm ma mb), (Z.add_comm ea eb). reflexivity.
Qed.

Lemma SFadd_comm a b : SFadd prec emax a b = SFadd prec emax b a.
Proof.
  destruct a as [sa|sa| |sa ma ea], b as [sb|sb| |sb mb eb]; cbn; try reflexivity;
    try (destruct sa, sb; reflexivity).
  rewrite (Z.min_comm ea eb), Z.add_comm. reflexivity.
Qed.

Lemma mul_comm (a b : float) : a * b = b * a.
Proof. apply Prim2SF_inj. rewrite !mul_spec. apply SFmul_comm. Qed.

Lemma add_comm (a b : float) : a + b = b + a.
Proof. apply Prim2SF_inj. rewrite !add_spec. apply SFadd_comm. Qed.

Lemma opp_involutive (a : float) : - - a = a.
Proof.
  apply Prim2SF_inj. rewrite !opp_spec.
  destruct (Prim2SF a) as [s|s| |s m e]; cbn; rewrite ?negb_involutive; reflexivity.
Qed.

Lemma abs_opp (a : float) : abs (- a) = abs a.
Proof.
  apply Prim2SF_inj. rewrite !abs_spec, opp_spec.
  destruct (Prim2SF a) as [s|s| |s m e]; reflexivity.
Qed.

Lemma is_nan_opp (a : float) : is_nan (- a) = is_nan a.
Proof.
  unfold is_nan. rewrite !FloatAxioms.eqb_spec, opp_spec.
  destruct (Prim2SF a) as [s|s| |s m e]; try reflexivity;
    unfold SFeqb; rewrite !SFcompare_refl by discriminate; reflexivity.
Qed.

Lemma eqb_zero_opp (a : float) : (- a =? 0) = (a =? 0).
Proof.
  rewrite !FloatAxioms.eqb_spec, opp_spec. change (Prim2SF 0) with (S754_zero false).
  destruct (Prim2SF a) as [s|s| |s m e]; try destruct s; reflexivity.
Qed.

(** The magnitude that [float_pow] hands to the C library. *)
Lemma magnitude_opp (a : float) :
  is_nan a = false -> (a =? 0) = false ->
  (if - a <? 0 then - - a else - a) = (if a <? 0 then - a else a).
Proof.
  intros Hn Hz. rewrite opp_involutive.
  assert (E : (- a <? 0) = negb (a <? 0)).
  { revert Hn Hz. unfold is_nan.
    rewrite !FloatAxioms.ltb_spec, !FloatAxioms.eqb_spec, opp_spec.
    change (Prim2SF 0) with (S754_zero false).
    destruct (Prim2SF a) as [s|s| |s m e]; try destruct s; cbn; try congruence;
      try reflexivity.
    all: unfold SFeqb; rewrite ?SFcompare_refl by discriminate; congruence. }
  rewrite E. destruct (a <? 0); reflexivity.
Qed.

Lemma binary_round_aux_opp s m e l :
  binary_round_aux prec emax (negb s) m e l = SFopp (binary_round_aux prec emax s m e l).
Proof.
  unfold binary_round_aux.
  destruct (shr_fexp prec emax m e l) as [mrs' e'].
  destruct (shr_fexp prec emax _ e' loc_Exact) as [mrs'' e''].
  destruct (shr_m mrs'') as [|p|p]; try reflexivity.
  destruct (e'' <=? emax - prec)%Z; reflexivity.
Qed.

Lemma SFdiv_opp_l a b : SFdiv prec emax (SFopp a) b = SFopp (SFdiv prec emax a b).
Proof.
  destruct a as [sa|sa| |sa ma ea], b as [sb|sb| |sb mb eb]; cbn;
    rewrite ?negb_xorb_l; try reflexivity.
  destruct (SFdiv_core_binary prec emax (Z.pos ma) ea (Z.pos mb) eb) as [[mz ez] lz].
  rewrite <- binary_round_aux_opp. destruct sa, sb; reflexivity.
Qed.

Lemma div_opp_l (a b : float) : - a / b = - (a / b).
Proof. apply Prim2SF_inj. rewrite div_spec, !opp_spec, div_spec. apply SFdiv_opp_l. Qed.

Lemma SFmul_opp_opp a : SFmul prec emax (SFopp a) (SFopp a) = SFmul prec emax a a.
Proof.
  destruct a as [sa|sa| |sa ma ea]; cbn; try reflexivity; destruct sa; reflexivity.
Qed.

Lemma sub_self_zero (a : float) : is_finite a = true -> (a - a =? 0) = true.
Proof.
  unfold is_finite, is_infinity, is_nan.
  rewrite !FloatAxioms.eqb_spec, abs_spec, sub_spec.
  change (Prim2SF infinity) with (S754_infinity false).
  change (Prim2SF 0) with (S754_zero false).
  destruct (Prim2SF a) as [s|s| |s m e]; cbn; try congruence.
  - destruct s; reflexivity.
  - destruct s; cbn; congruence.
  - intros _. rewrite Z.min_id, Z.sub_diag. reflexivity.
Qed.

End MoreFloatFacts.

(** ** Vectors: normalisation, negation, commutation *)

Section VectorFacts.
Context `{Libm}.
Local Open Scope float_scope.

Lemma opp_nan (a : float) : is_nan a = true -> - a = a.
Proof.
  intros Hn. apply is_nan_spec in Hn. apply Prim2SF_inj. rewrite opp_spec, Hn. reflexivity.
Qed.

Lemma pow2_opp (a : float) : Py.pow (- a) 2 = Py.pow a 2.
Proof.
  rewrite !pow2_eq, is_nan_opp, eqb_zero_opp. unfold is_infinity at 1 3.
  rewrite abs_opp.
  destruct (is_nan a) eqn:Hn; [rewrite (opp_nan a Hn); reflexivity|].
  destruct (abs a =? infinity); [reflexivity|].
  destruct (a =? 0) eqn:Hz; [reflexivity|].
  cbv zeta. rewrite (magnitude_opp a Hn Hz). reflexivity.
Qed.

Lemma pow2_zero (a : float) : (a =? 0) = true -> Py.pow a 2 = Ok 0.
Proof.
  intros Hz. rewrite pow2_eq.
  destruct (zero_or_nan_cases a) as [Hn|(Hn & _ & Hi)].
  - apply zero_is_zero_or_nan, eqb_zero, Hz.
  - exfalso. apply is_nan_spec in Hn. apply eqb_zero in Hz. rewrite Hn in Hz. discriminate.
  - rewrite Hn, Hi, Hz. reflexivity.
Qed.

Lemma length_zero (v : Vector3.t) :
  (Vector3.x v =? 0) = true -> (Vector3.y v =? 0) = true -> (Vector3.z v =? 0) = true ->
  Vector3.length v = Ok 0.
Proof.
  intros Hx Hy Hz. unfold Vector3.length.
  rewrite (pow2_zero _ Hx), (pow2_zero _ Hy), (pow2_zero _ Hz). reflexivity.
Qed.

Lemma normalize_at_zero_length (v : Vector3.t) (len : float) :
  Vector3.length v = Ok len -> (len =? 0) = true ->
  Vector3.normalize v = Ok (Vector3.mk 0 0 0).
Proof.
  intros Hlen Hz. unfold Vector3.normalize. rewrite Hlen. cbn [bind]. rewrite Hz. reflexivity.
Qed.

Lemma normalize_zero (v : Vector3.t) :
  (Vector3.x v =? 0) = true -> (Vector3.y v =? 0) = true -> (Vector3.z v =? 0) = true ->
  Vector3.normalize v = Ok (Vector3.mk 0 0 0).
Proof.
  intros Hx Hy Hz. eapply normalize_at_zero_length; [apply length_zero; assumption|reflexivity].
Qed.

Lemma normalize_away_from_zero (v : Vector3.t) (len : float) :
  Vector3.length v = Ok len -> (len =? 0) = false ->
  Vector3.normalize v =
    Ok (Vector3.mk (Vector3.x v / len) (Vector3.y v / len) (Vector3.z v / len)).
Proof.
  intros Hlen Hz. unfold Vector3.normalize, Py.div. rewrite Hlen. cbn [bind].
  rewrite Hz. reflexivity.
Qed.

Lemma length_no_zero_division (v : Vector3.t) :
  raises_zero_division (Vector3.length v) = false.
Proof.
  unfold Vector3.length.
  pose proof (pow2_no_zero_division (Vector3.x v)) as Hx.
  destruct (Py.pow (Vector3.x v) 2) as [x2|e]; cbn [bind]; [|exact Hx].
  pose proof (pow2_no_zero_division (Vector3.y v)) as Hy.
  destruct (Py.pow (Vector3.y v) 2) as [y2|e]; cbn [bind]; [|exact Hy].
  pose proof (pow2_no_zero_division (Vector3.z v)) as Hz.
  destruct (Py.pow (Vector3.z v) 2) as [z2|e]; cbn [bind]; [|exact Hz].
  unfold Py.sqrt. destruct (_ && _); reflexivity.
Qed.

(** X1. [Vector3.normalize] guards its divisions: it never raises
    [ZeroDivisionError].  A length that compares equal to zero gives the
    vector [(0, 0, 0)], and so does every vector whose components are zeros
    of either sign; any other length divides each component by it (a NaN
    length included); and a failure of [length] is passed on unchanged. *)
Theorem normalize_guarded (v : Vector3.t) :
  raises_zero_division (Vector3.normalize v) = false /\
  (forall len, Vector3.length v = Ok len -> (len =? 0) = true ->
     Vector3.normalize v = Ok (Vector3.mk 0 0 0)) /\
  (forall len, Vector3.length v = Ok len -> (len =? 0) = false ->
     Vector3.normalize v =
       Ok (Vector3.mk (Vector3.x v / len) (Vector3.y v / len) (Vector3.z v / len))) /\
  ((Vector3.x v =? 0) = true -> (Vector3.y v =? 0) = true -> (Vector3.z v =? 0) = true ->
     Vector3.normalize v = Ok (Vector3.mk 0 0 0)) /\
  (forall e, Vector3.length v = Raise e -> Vector3.normalize v = Raise e).
Proof.
  split; [|split; [|split; [|split]]].
  - pose proof (length_no_zero_division v) as Hlen.
    destruct (Vector3.length v) as [len|e] eqn:E.
    + destruct (len =? 0) eqn:Hz.
      * rewrite (normalize_at_zero_length v len E Hz). reflexivity.
      * rewrite (normalize_away_from_zero v len E Hz). reflexivity.
    + unfold Vector3.normalize. rewrite E. exact Hlen.
  - apply normalize_at_zero_length.
  - apply normalize_away_from_zero.
  - apply normalize_zero.
  - intros e E. unfold Vector3.normalize. rewrite E. reflexivity.
Qed.

Lemma length_neg (v : Vector3.t) : Vector3.length (Vector3.__neg__ v) = Vector3.length v.
Proof.
  unfold Vector3.length, Vector3.__neg__. cbn [Vector3.x Vector3.y Vector3.z].
  rewrite !pow2_opp. reflexivity.
Qed.

(** X2. Negation costs nothing: a vector and its negation have the same
    length (or the same failure), normalising the negation gives the
    negation of the normalised vector, bit for bit, and negating twice
    gives the vector back. *)
Theorem negation_symmetry (v : Vector3.t) :
  Vector3.length (Vector3.__neg__ v) = Vector3.length v /\
  (forall len, Vector3.length v = Ok len -> (len =? 0) = false ->
     Vector3.normalize (Vector3.__neg__ v) =
       (n <- Vector3.normalize v ;; Ok (Vector3.__neg__ n))) /\
  Vector3.__neg__ (Vector3.__neg__ v) = v.
Proof.
  split; [apply length_neg|]. split.
  - intros len Hlen Hz.
    rewrite (normalize_away_from_zero v len Hlen Hz).
    rewrite (normalize_away_from_zero (Vector3.__neg__ v) len) by
      (rewrite ?length_neg; assumption).
    cbn [bind Vector3.__neg__ Vector3.x Vector3.y Vector3.z].
    rewrite !div_opp_l. reflexivity.
  - destruct v as [a b c]. unfold Vector3.__neg__. cbn. rewrite !opp_involutive. reflexivity.
Qed.

(** X3. [Sphere.intersect] reads the radius only through its square: a
    sphere of radius [-r] answers every ray as the sphere of radius [r]
    does. *)
Theorem radius_sign_ignored (center : Vector3.t) (radius : float) (m : Material.t)
    (ray : Ray.t) :
  Sphere.intersect (Sphere.mk center (- radius) m) ray =
  Sphere.intersect (Sphere.mk center radius m) ray.
Proof.
  unfold Sphere.intersect. cbn [Sphere.center Sphere.radius]. rewrite pow2_opp. reflexivity.
Qed.


(** X5. The normal at the centre of a sphere with finite coordinates is
    the vector [(0, 0, 0)], not a unit vector, and asking for it raises
    nothing. *)
Theorem normal_at_centre (self : Sphere.t) :
  is_finite (Vector3.x (Sphere.center self)) = true ->
  is_finite (Vector3.y (Sphere.center self)) = true ->
  is_finite (Vector3.z (Sphere.center self)) = true ->
  Sphere.normal_vector self (Sphere.center self) = Ok (Vector3.mk 0 0 0).
Proof.
  intros Hx Hy Hz. unfold Sphere.normal_vector.
  apply normalize_zero; cbn [Vector3.__sub__ Vector3.x Vector3.y Vector3.z];
    apply sub_self_zero; assumption.
Qed.

(** X18. Division of a vector by a scalar, in both forms, refuses a zero of
    either sign with [ValueError], before any component is divided, so
    that [ZeroDivisionError] cannot arise; any other scalar, a NaN or an
    infinity included, divides the three components and raises nothing. *)
Theorem vector_division_guard (v : Vector3.t) (s : float) :
  ((s =? 0) = true ->
     Vector3.__truediv__ v s = Raise ValueError /\
     Vector3.__itruediv__ v s = Raise ValueError) /\
  ((s =? 0) = false ->
     Vector3.__truediv__ v s =
       Ok (Vector3.mk (Vector3.x v / s) (Vector3.y v / s) (Vector3.z v / s)) /\
     Vector3.__itruediv__ v s =
       Ok (Vector3.mk (Vector3.x v / s) (Vector3.y v / s) (Vector3.z v / s))) /\
  raises_only [ValueError] (Vector3.__truediv__ v s) = true /\
  raises_only [ValueError] (Vector3.__itruediv__ v s) = true /\
  Vector3.__truediv__ v (-0) = Raise ValueError /\
  is_ok (Vector3.__truediv__ v nan) = true.
Proof.
  assert (Hzero : (s =? 0) = true ->
            Vector3.__truediv__ v s = Raise ValueError /\
            Vector3.__itruediv__ v s = Raise ValueError).
  { intros Hs. unfold Vector3.__truediv__, Vector3.__itruediv__. rewrite Hs. split; reflexivity. }
  assert (Hother : (s =? 0) = false ->
            Vector3.__truediv__ v s =
              Ok (Vector3.mk (Vector3.x v / s) (Vector3.y v / s) (Vector3.z v / s)) /\
            Vector3.__itruediv__ v s =
              Ok (Vector3.mk (Vector3.x v / s) (Vector3.y v / s) (Vector3.z v / s))).
  { intros Hs. unfold Vector3.__truediv__, Vector3.__itruediv__, Py.div. rewrite Hs.
    split; reflexivity. }
  split; [exact Hzero|]. split; [exact Hother|].
  destruct (s =? 0) eqn:Hs.
  - destruct (Hzero eq_refl) as [-> ->]. repeat split; reflexivity.
  - destruct (Hother eq_refl) as [-> ->]. repeat split; reflexivity.
Qed.

End VectorFacts.

(** ** The scan of [Scene.hit]: failures and growing scenes *)

Section SceneFacts.
Context `{Libm}.
Local Open Scope float_scope.

Lemma for_each_app {S A : Type} (body : S -> A -> result S) (l1 l2 : list A) :
  forall s, for_each body (l1 ++ l2) s = (s' <- for_each body l1 s ;; for_each body l2 s').
Proof.
  induction l1 as [|a l1 IH]; intros s; cbn [app for_each bind]; [reflexivity|].
  destruct (body s a) as [s1|e]; cbn [bind]; [apply IH|reflexivity].
Qed.

Lemma scan_raises (ray : Ray.t) (objs : list Sphere.t) (e : exn) :
  forall st,
    for_each (Scene.hit_step ray) objs st = Raise e <->
    exists i obj, objs !! i = Some obj /\ Sphere.intersect obj ray = Raise e /\
      forall j o, (j < i)%nat -> objs !! j = Some o -> is_ok (Sphere.intersect o ray) = true.
Proof.
  induction objs as [|obj objs IH]; intros st; cbn [for_each].
  - split; [discriminate|]. intros (i & o & Hi & _). rewrite lookup_nil in Hi. discriminate.
  - rewrite hit_step_eq.
    destruct (Sphere.intersect obj ray) as [t|e'] eqn:Hobj; cbn [bind].
    + assert (Hnext : exists st1,
                (match t with
                 | Some t' => if t' <? fst st then Ok (t', Some obj) else Ok st
                 | None => Ok st
                 end) = Ok st1).
      { destruct t as [t'|]; [destruct (t' <? fst st)|]; eauto. }
      destruct Hnext as (st1 & ->). cbn [bind]. rewrite IH. split.
      * intros (i & o & Hi & Ho & Hbefore). exists (S i), o.
        split; [exact Hi|]. split; [exact Ho|].
        intros [|j] o' Hj Hlook; cbn in Hlook.
        -- injection Hlook as <-. rewrite Hobj. reflexivity.
        -- eapply Hbefore; [|exact Hlook]. lia.
      * intros (i & o & Hi & Ho & Hbefore). destruct i as [|i]; cbn in Hi.
        -- injection Hi as <-. congruence.
        -- exists i, o. split; [exact Hi|]. split; [exact Ho|].
           intros j o' Hj Hlook. apply (Hbefore (S j) o'); [lia|exact Hlook].
    + split.
      * intros Heq. injection Heq as ->. exists 0%nat, obj.
        split; [reflexivity|]. split; [exact Hobj|]. intros j o Hj. lia.
      * intros (i & o & Hi & Ho & Hbefore). destruct i as [|i]; cbn in Hi.
        -- injection Hi as <-. congruence.
        -- specialize (Hbefore 0%nat obj ltac:(lia) eq_refl). rewrite Hobj in Hbefore.
           discriminate.
Qed.

Lemma hit_raises_iff_scan (scene : Scene.t) (ray : Ray.t) (e : exn) :
  Scene.hit scene ray = Raise e <->
  for_each (Scene.hit_step ray) (Scene.objects scene) (infinity, None) = Raise e.
Proof.
  unfold Scene.hit.
  destruct (for_each _ (Scene.objects scene) _) as [[t [o|]]|e']; cbn [bind snd fst].
  - rewrite point_ok. cbn [bind]. split; discriminate.
  - split; discriminate.
  - split; intros Heq; injection Heq as ->; reflexivity.
Qed.

(** X6. [Scene.hit] raises exactly when some sphere's [intersect] raises,
    and then it raises the exception of the first such sphere in the order
    of the list: the spheres after it are not asked, and evaluating the hit
    point raises nothing. *)
Theorem hit_raises_first_error (scene : Scene.t) (ray : Ray.t) (e : exn) :
  Scene.hit scene ray = Raise e <->
  exists i obj,
    Scene.objects scene !! i = Some obj /\ Sphere.intersect obj ray = Raise e /\
    forall j o, (j < i)%nat -> Scene.objects scene !! j = Some o ->
                is_ok (Sphere.intersect o ray) = true.
Proof. rewrite hit_raises_iff_scan. apply scan_raises. Qed.

(** X7. How the answer to a ray changes when a sphere is appended with
    [add_object]: a sphere that the ray misses changes nothing; one whose
    [intersect] raises makes a scan that returned raise that exception; one
    that is hit either leaves the answer as it was or becomes the answer,
    with its own hit point.  [add_lighting] never changes the answer, and
    [add_object] leaves the lights alone. *)
Theorem add_object_extends_scan (scene : Scene.t) (obj : Sphere.t) (ray : Ray.t) :
  (Sphere.intersect obj ray = Ok None ->
   Scene.hit (Scene.add_object scene obj) ray = Scene.hit scene ray) /\
  (forall e h, Sphere.intersect obj ray = Raise e -> Scene.hit scene ray = Ok h ->
     Scene.hit (Scene.add_object scene obj) ray = Raise e) /\
  (forall t h, Sphere.intersect obj ray = Ok (Some t) -> Scene.hit scene ray = Ok h ->
     exists p, Ray.point ray t = Ok p /\
       (Scene.hit (Scene.add_object scene obj) ray = Ok h \/
        Scene.hit (Scene.add_object scene obj) ray = Ok (Some (p, obj)))) /\
  (forall light, Scene.hit (Scene.add_lighting scene light) ray = Scene.hit scene ray) /\
  Scene.lighting (Scene.add_object scene obj) = Scene.lighting scene.
Proof.
  assert (Hstep : Scene.hit (Scene.add_object scene obj) ray =
            (st <- (st0 <- for_each (Scene.hit_step ray) (Scene.objects scene) (infinity, None) ;;
                    Scene.hit_step ray st0 obj) ;;
             match snd st with
             | Some closest_obj =>
                 hit_point <- Ray.point ray (fst st) ;; Ok (Some (hit_point, closest_obj))
             | None => Ok None
             end)).
  { unfold Scene.hit, Scene.add_object. cbn [Scene.objects]. rewrite for_each_app.
    destruct (for_each _ (Scene.objects scene) _) as [st0|e]; cbn [bind for_each]; [|reflexivity].
    destruct (Scene.hit_step ray st0 obj); reflexivity. }
  split; [|split; [|split; [|split]]].
  - intros Hmiss. rewrite Hstep. unfold Scene.hit.
    destruct (for_each _ (Scene.objects scene) _) as [st0|e]; cbn [bind]; [|reflexivity].
    rewrite hit_step_eq, Hmiss. reflexivity.
  - intros e h Hraise Hhit. rewrite Hstep. unfold Scene.hit in Hhit.
    destruct (for_each _ (Scene.objects scene) _) as [st0|e0]; cbn [bind] in Hhit |- *;
      [|discriminate].
    rewrite hit_step_eq, Hraise. reflexivity.
  - intros t h Hobj Hhit. rewrite Hstep. unfold Scene.hit in Hhit. rewrite point_ok.
    eexists. split; [reflexivity|].
    destruct (for_each _ (Scene.objects scene) _) as [st0|e0]; cbn [bind] in Hhit |- *;
      [|discriminate].
    rewrite hit_step_eq, Hobj. cbn [bind].
    destruct (t <? fst st0); cbn [bind snd fst].
    + right. rewrite point_ok. reflexivity.
    + left. exact Hhit.
  - reflexivity.
  - reflexivity.
Qed.

Lemma scan_returns_all (ray : Ray.t) (objs : list Sphere.t) :
  forall st st',
    for_each (Scene.hit_step ray) objs st = Ok st' ->
    exists ts, Forall2 (fun obj t => Sphere.intersect obj ray = Ok t) objs ts.
Proof.
  induction objs as [|obj objs IH]; intros st st'; cbn [for_each].
  - intros _. exists []. constructor.
  - rewrite hit_step_eq.
    destruct (Sphere.intersect obj ray) as [t|e] eqn:Hobj; cbn [bind]; [|discriminate].
    intros Hrest.
    assert (Hts : exists ts, Forall2 (fun obj t => Sphere.intersect obj ray = Ok t) objs ts).
    { destruct t as [t|]; [destruct (t <? fst st)|]; eapply IH, Hrest. }
    destruct Hts as [ts Hts]. exists (t :: ts). constructor; assumption.
Qed.

(** X17. What [Scene.hit] reports is a real intersection: the sphere
    is one of the scene's, its own [intersect] returns the parameter [t] of
    the reported point, [t] lies above 0.001 and below infinity, and no
    sphere of the scene has a smaller parameter.  When it reports nothing,
    every sphere was missed or was met at a parameter not below infinity. *)
Theorem hit_is_an_intersection (scene : Scene.t) (ray : Ray.t) :
  (forall p obj, Scene.hit scene ray = Ok (Some (p, obj)) ->
     exists i t,
       Scene.objects scene !! i = Some obj /\
       Sphere.intersect obj ray = Ok (Some t) /\
       (0.001 <? t) = true /\ (t <? infinity) = true /\
       Ray.point ray t = Ok p /\
       forall j o t', Scene.objects scene !! j = Some o ->
                      Sphere.intersect o ray = Ok (Some t') -> (t' <? t) = false) /\
  (Scene.hit scene ray = Ok None ->
   forall j o, Scene.objects scene !! j = Some o ->
     Sphere.intersect o ray = Ok None \/
     exists t', Sphere.intersect o ray = Ok (Some t') /\ (t' <? infinity) = false).
Proof.
  unfold Scene.hit.
  destruct (for_each (Scene.hit_step ray) (Scene.objects scene) (infinity, None))
    as [st|e] eqn:Hrun; cbn [bind]; [|split; intros; discriminate].
  destruct (scan_returns_all ray _ _ _ Hrun) as [ts Hts].
  destruct (hit_scan ray _ ts (infinity, None) Hts) as (st' & Hrun' & Hall & _ & Hwin).
  rewrite Hrun in Hrun'. injection Hrun' as <-.
  assert (Hat : forall j o t', Scene.objects scene !! j = Some o ->
                  Sphere.intersect o ray = Ok (Some t') -> ts !! j = Some (Some t')).
  { intros j o t' Ho Ht'.
    destruct (Forall2_lookup_l _ _ _ _ _ Hts Ho) as (t0 & Hj & Ht0).
    rewrite Ht' in Ht0. injection Ht0 as <-. exact Hj. }
  destruct Hwin as [->|(i & obj & t & Hi & Hti & -> & Hlt & _)]; cbn [snd fst] in *.
  - split; [intros; discriminate|]. intros _ j o Ho.
    destruct (Forall2_lookup_l _ _ _ _ _ Hts Ho) as ([t'|] & Hj & Ht0); [right|left; exact Ht0].
    exists t'. split; [exact Ht0|]. eapply Hall, Hj.
  - split; [|rewrite point_ok; intros; discriminate].
    intros p obj' Hhit. rewrite point_ok in Hhit. cbn [bind] in Hhit.
    injection Hhit as <- <-. exists i, t.
    destruct (Forall2_lookup_l _ _ _ _ _ Hts Hi) as (t0 & Hj & Ht0).
    rewrite Hti in Hj. injection Hj as <-.
    split; [exact Hi|]. split; [exact Ht0|].
    split; [eapply intersect_some_above, Ht0|]. split; [exact Hlt|].
    split; [apply point_ok|].
    intros j o t' Ho Ht'. eapply Hall, Hat; eassumption.
Qed.

End SceneFacts.

(** ** The shader: deep reflections and the fields it never reads *)

Section ShadingFacts.
Context `{Libm}.
Local Open Scope float_scope.

Lemma shade_ext (self : Ray.t) (scene : Scene.t) (depth max_depth : Z)
    (f g : Ray.t -> result Vector3.t) (h : option (Vector3.t * Sphere.t)) :
  (forall r, f r = g r) ->
  shade self scene depth max_depth f h = shade self scene depth max_depth g h.
Proof.
  intros Hfg. unfold shade. destruct h as [[hit_point obj]|]; [|reflexivity].
  destruct (depth >=? max_depth)%Z; [reflexivity|].
  destruct (Shader.local_color self scene hit_point obj) as [lc|e]; cbn [bind]; [|reflexivity].
  destruct (0 <? _); [|reflexivity].
  destruct (Shader.reflection_ray self hit_point (fst lc)) as [rr|e]; cbn [bind]; [|reflexivity].
  rewrite Hfg. reflexivity.
Qed.

Lemma shade_at_bound (self : Ray.t) (scene : Scene.t) (depth max_depth : Z)
    (f : Ray.t -> result Vector3.t) (h : option (Vector3.t * Sphere.t)) :
  (max_depth <= depth)%Z ->
  shade self scene depth max_depth f h = Ok (sky self).
Proof.
  intros Hle. unfold shade. destruct h as [[hit_point obj]|]; [|apply background_sky].
  destruct (Z.geb_spec depth max_depth) as [_|Hlt]; [apply background_sky|lia].
Qed.

(** Under the default bound, [1 + (3 - depth)] frames are as good as any
    larger stack. *)
Lemma default_stack (k : nat) :
  forall (self : Ray.t) (scene : Scene.t) (depth : Z) (n m : nat),
    (3 - depth <= Z.of_nat k)%Z -> (k < n)%nat -> (k < m)%nat ->
    Shader.color_rec n self scene depth Shader.default_max_depth =
    Shader.color_rec m self scene depth Shader.default_max_depth.
Proof.
  induction k as [|k IH]; intros self scene depth n m Hk Hn Hm;
    destruct n as [|n]; [lia| |lia|]; (destruct m as [|m]; [lia|]).
  - apply color_rec_at_bound. unfold Shader.default_max_depth. lia.
  - rewrite !color_rec_step.
    destruct (Scene.hit scene self) as [h|e]; cbn [bind]; [|reflexivity].
    apply shade_ext. intros r. apply IH; lia.
Qed.

(** X8. From depth 2 on, which is where the renderer starts, a reflection
    shows the sky only: when a reflective sphere is hit at a depth of at
    least 2 below the supplied bound, the reflected colour is the background
    of the reflection ray, whatever that ray hits; the scene is still
    scanned for it, and a failure of that scan is passed on. *)
Theorem deep_reflection_is_sky (self : Ray.t) (scene : Scene.t) (depth max_depth : Z)
    (hit_point : Vector3.t) (obj : Sphere.t) (normal local : Vector3.t) :
  (2 <= depth)%Z -> (depth < max_depth)%Z ->
  Scene.hit scene self = Ok (Some (hit_point, obj)) ->
  Shader.local_color self scene hit_point obj = Ok (normal, local) ->
  (0 <? Material.reflectivity (Sphere.material obj)) = true ->
  Shader.color self scene depth max_depth =
    (ref_ray <- Shader.reflection_ray self hit_point normal ;;
     _ <- Scene.hit scene ref_ray ;;
     Ok (blend local (sky ref_ray) (Material.reflectivity (Sphere.material obj)))).
Proof.
  intros Hdeep Hlt Hhit Hlocal Hk.
  rewrite color_unfold, Hhit. cbn [bind]. unfold shade at 1.
  destruct (Z.geb_spec depth max_depth) as [Hge|_]; [lia|].
  rewrite Hlocal. cbn [bind fst snd]. rewrite Hk.
  destruct (Shader.reflection_ray self hit_point normal) as [rr|e]; cbn [bind]; [|reflexivity].
  rewrite color_unfold.
  destruct (Scene.hit scene rr) as [h|e]; cbn [bind]; [|reflexivity].
  rewrite shade_at_bound by (unfold Shader.default_max_depth; lia).
  cbn [bind]. apply mix_color_blend.
Qed.

Lemma intersect_same (o o' : Sphere.t) (ray : Ray.t) :
  same_sphere o o' -> Sphere.intersect o ray = Sphere.intersect o' ray.
Proof. intros (Hc & Hr & _). apply intersect_geometry; assumption. Qed.

Lemma scan_same (ray : Ray.t) (objs objs' : list Sphere.t) :
  Forall2 same_sphere objs objs' ->
  forall st st',
    fst st = fst st' -> option_Forall2 same_sphere (snd st) (snd st') ->
    match for_each (Scene.hit_step ray) objs st, for_each (Scene.hit_step ray) objs' st' with
    | Ok s, Ok s' => fst s = fst s' /\ option_Forall2 same_sphere (snd s) (snd s')
    | Raise e, Raise e' => e = e'
    | _, _ => False
    end.
Proof.
  induction 1 as [|o o' objs objs' Ho _ IH]; intros st st' Hfst Hsnd; cbn [for_each].
  - split; assumption.
  - rewrite !hit_step_eq, <- (intersect_same o o' ray Ho), <- Hfst.
    destruct (Sphere.intersect o ray) as [[t|]|e]; cbn [bind]; [| |reflexivity].
    + destruct (t <? fst st).
      * apply IH; [reflexivity|constructor; exact Ho].
      * apply IH; assumption.
    + apply IH; assumption.
Qed.

Lemma hit_same (scene scene' : Scene.t) (ray : Ray.t) :
  same_appearance scene scene' ->
  match Scene.hit scene ray, Scene.hit scene' ray with
  | Ok h, Ok h' => same_hit h h'
  | Raise e, Raise e' => e = e'
  | _, _ => False
  end.
Proof.
  intros [Hobjs _]. unfold Scene.hit.
  pose proof (scan_same ray _ _ Hobjs (infinity, None) (infinity, None) eq_refl
                ltac:(constructor)) as Hscan.
  destruct (for_each _ (Scene.objects scene) _) as [[t c]|e],
           (for_each _ (Scene.objects scene') _) as [[t' c']|e'];
    cbn [bind fst snd] in *; try contradiction; [|exact Hscan].
  destruct Hscan as [-> Hc]. destruct Hc as [o o' Ho|]; cbn [bind].
  - rewrite !point_ok. cbn [bind same_hit]. split; [reflexivity|exact Ho].
  - exact I.
Qed.

Lemma light_step_same (plus : Vector3.t -> Vector3.t -> result Vector3.t)
    (hit_point normal view_dir : Vector3.t) (o o' : Sphere.t) (color : Vector3.t)
    (l l' : Light.t) :
  same_sphere o o' -> same_light l l' ->
  Shader.light_step plus hit_point normal view_dir o color l =
  Shader.light_step plus hit_point normal view_dir o' color l'.
Proof.
  intros (_ & _ & Hd & Hs & Hn & _) [Hp Hc]. unfold Shader.light_step.
  rewrite Hd, Hs, Hn, Hp, Hc. reflexivity.
Qed.

Lemma accumulate_same (plus : Vector3.t -> Vector3.t -> result Vector3.t)
    (hit_point normal view_dir : Vector3.t) (o o' : Sphere.t) (ls ls' : list Light.t) :
  same_sphere o o' -> Forall2 same_light ls ls' ->
  forall color,
    Shader.accumulate plus hit_point normal view_dir o ls color =
    Shader.accumulate plus hit_point normal view_dir o' ls' color.
Proof.
  intros Ho. unfold Shader.accumulate.
  induction 1 as [|l l' ls ls' Hl _ IH]; intros color; cbn [for_each]; [reflexivity|].
  rewrite (light_step_same plus _ _ _ o o' color l l' Ho Hl).
  destruct (Shader.light_step _ _ _ _ o' color l'); cbn [bind]; [apply IH|reflexivity].
Qed.

Lemma local_color_same (self : Ray.t) (scene scene' : Scene.t) (hit_point : Vector3.t)
    (o o' : Sphere.t) :
  same_appearance scene scene' -> same_sphere o o' ->
  Shader.local_color self scene hit_point o = Shader.local_color self scene' hit_point o'.
Proof.
  intros [_ Hlights] Ho. unfold Shader.local_color, Sphere.normal_vector.
  rewrite <- (proj1 Ho).
  destruct (Vector3.normalize (Vector3.__sub__ _ _)) as [normal|e]; cbn [bind]; [|reflexivity].
  destruct (Vector3.normalize (Ray.direction self)) as [u|e]; cbn [bind]; [|reflexivity].
  rewrite (accumulate_same _ _ _ _ o o' _ _ Ho Hlights). reflexivity.
Qed.

Lemma color_rec_same (scene scene' : Scene.t) :
  same_appearance scene scene' ->
  forall (n : nat) (self : Ray.t) (depth max_depth : Z),
    Shader.color_rec n self scene depth max_depth =
    Shader.color_rec n self scene' depth max_depth.
Proof.
  intros Hsame. induction n as [|n IH]; intros self depth max_depth; [reflexivity|].
  rewrite !color_rec_step. pose proof (hit_same scene scene' self Hsame) as Hhit.
  destruct (Scene.hit scene self) as [h|e], (Scene.hit scene' self) as [h'|e'];
    cbn [bind]; try contradiction; [|congruence].
  destruct h as [[p o]|], h' as [[p' o']|]; cbn [same_hit] in Hhit; try contradiction;
    [|reflexivity].
  destruct Hhit as [<- Ho]. unfold shade.
  destruct (depth >=? max_depth)%Z; [reflexivity|].
  rewrite <- (local_color_same self scene scene' p o o' Hsame Ho).
  destruct (Shader.local_color self scene p o) as [lc|e]; cbn [bind]; [|reflexivity].
  destruct Ho as (_ & _ & _ & _ & _ & <-).
  destruct (0 <? _); [|reflexivity].
  destruct (Shader.reflection_ray self p (fst lc)) as [rr|e]; cbn [bind]; [|reflexivity].
  rewrite IH. reflexivity.
Qed.

Lemma for_each_ext {S A : Type} (f g : S -> A -> result S) (l : list A) :
  (forall s a, f s a = g s a) -> forall s, for_each f l s = for_each g l s.
Proof.
  intros Hfg. induction l as [|a l IH]; intros s; cbn [for_each]; [reflexivity|].
  rewrite Hfg. destruct (g s a); cbn [bind]; [apply IH|reflexivity].
Qed.

(** X9. The shader never reads a material's ambient colour, transparency,
    refractive index or emission colour, nor a light's intensity: two
    scenes that agree on everything else get the same colour for every ray,
    and the same image from every camera. *)
Theorem unread_fields_do_not_shade (scene scene' : Scene.t) :
  same_appearance scene scene' ->
  (forall self depth max_depth,
     Shader.color self scene depth max_depth = Shader.color self scene' depth max_depth) /\
  (forall camera width height,
     Renderer.render camera scene width height = Renderer.render camera scene' width height).
Proof.
  intros Hsame.
  assert (Hcolor : forall self depth max_depth,
             Shader.color self scene depth max_depth =
             Shader.color self scene' depth max_depth).
  { intros. unfold Shader.color. apply color_rec_same, Hsame. }
  split; [exact Hcolor|].
  intros camera width height. unfold Renderer.render.
  apply for_each_ext. intros buf y. unfold Renderer.render_row.
  apply for_each_ext. intros buf' x. f_equal. unfold Renderer.render_pixel. f_equal.
  apply for_each_ext. intros total sy. apply for_each_ext. intros total' sx.
  unfold Renderer.sample_step, Renderer.sample_color. f_equal.
  destruct (Renderer.sample_coordinates _ _ _ _ _ _) as [uv|e]; cbn [bind]; [|reflexivity].
  destruct (Camera.get_ray _ _ _) as [ray|e]; cbn [bind]; [|reflexivity].
  apply Hcolor.
Qed.

End ShadingFacts.

(** ** The camera: image sizes and targets that give no view *)

Section CameraFacts.
Context `{Libm}.
Local Open Scope float_scope.

Lemma binary_round_not_nan s m e : binary_round prec emax s m e <> S754_nan.
Proof.
  unfold binary_round. destruct (shl_align _ _ _) as [mz ez].
  apply binary_round_aux_not_nan. lia.
Qed.

Lemma binary_normalize_not_nan m e s : binary_normalize prec emax m e s <> S754_nan.
Proof.
  destruct m; cbn [binary_normalize]; [discriminate| |]; apply binary_round_not_nan.
Qed.

Lemma SFldexp_not_nan f e : f <> S754_nan -> SFldexp prec emax f e <> S754_nan.
Proof.
  destruct f; cbn [SFldexp]; try congruence. intros _. apply binary_round_not_nan.
Qed.

Lemma SF2Prim_not_nan (s : spec_float) : s <> S754_nan -> is_nan (SF2Prim s) = false.
Proof.
  intros Hs. destruct (is_nan (SF2Prim s)) eqn:E; [|reflexivity]. exfalso.
  apply is_nan_spec in E. destruct s as [[]|[]| |sg m e]; try discriminate E; [congruence|].
  cbn [SF2Prim] in E.
  assert (Hl : Prim2SF (Z.ldexp (of_uint63 (Uint63Axioms.of_Z (Z.pos m))) e) <> S754_nan).
  { rewrite Z_ldexp_spec. apply SFldexp_not_nan. rewrite of_uint63_spec.
    apply binary_normalize_not_nan. }
  destruct sg; [rewrite opp_spec in E|]; [|contradiction].
  destruct (Prim2SF (Z.ldexp _ e)); try discriminate E. contradiction.
Qed.

(** An integer converts to a finite float or not at all. *)
Lemma float_of_int_finite (n : Z) (f : float) :
  Py.float_of_int n = Ok f -> is_finite f = true.
Proof.
  unfold Py.float_of_int. cbv zeta.
  destruct (is_infinity _) eqn:Hi; [discriminate|]. intros [= <-].
  unfold is_finite. rewrite Hi, SF2Prim_not_nan by apply binary_normalize_not_nan.
  reflexivity.
Qed.

Lemma div_zero_finite (a b : float) :
  (a =? 0) = true -> is_finite b = true -> (b =? 0) = false -> (a / b =? 0) = true.
Proof.
  unfold is_finite, is_infinity, is_nan.
  rewrite !FloatAxioms.eqb_spec, abs_spec, div_spec.
  change (Prim2SF infinity) with (S754_infinity false).
  change (Prim2SF 0) with (S754_zero false).
  destruct (Prim2SF a) as [sa|sa| |sa ma ea], (Prim2SF b) as [sb|sb| |sb mb eb]; cbn;
    try congruence; try (destruct sa; cbn; congruence).
Qed.

Lemma mul_zero_finite (a k : float) :
  (a =? 0) = true -> is_finite k = true -> (a * k =? 0) = true.
Proof.
  intros Ha Hk. apply eqb_zero. rewrite mul_comm. apply mul_number_zero; [exact Hk|].
  apply eqb_zero, Ha.
Qed.

Lemma add_zero (a b : float) : (a =? 0) = true -> (b =? 0) = true -> (a + b =? 0) = true.
Proof. rewrite !eqb_zero. apply add_zero_zero. Qed.

(** The aspect ratio of an image without columns is zero. *)
Lemma no_columns_no_aspect (height : Z) (aspect_ratio : float) :
  (w <- Py.float_of_int 0 ;; h <- Py.float_of_int height ;; Py.div w h) = Ok aspect_ratio ->
  (aspect_ratio =? 0) = true.
Proof.
  change (Py.float_of_int 0) with (Ok 0 : result float). cbn [bind].
  destruct (Py.float_of_int height) as [h|e] eqn:Hh; cbn [bind]; [|discriminate].
  unfold Py.div. destruct (h =? 0) eqn:Hz; [discriminate|]. intros [= <-].
  apply div_zero_finite; [reflexivity|apply (float_of_int_finite height), Hh|exact Hz].
Qed.

(** X10. A camera needs an image with an area: [Camera.__init__] returns
    no camera for a height of 0, nor for a width of 0.  With height 0 the
    aspect ratio itself divides by zero; with width 0 the aspect ratio is
    zero and the screen height divides by it, unless the tangent has
    already failed. *)
Theorem camera_needs_area (position target : Vector3.t) (fov : float) :
  (forall width, is_ok (Camera.__init__ position target fov width 0) = false) /\
  (forall height, is_ok (Camera.__init__ position target fov 0 height) = false) /\
  (forall width w, Py.float_of_int width = Ok w ->
     Camera.__init__ position target fov width 0 = Raise ZeroDivisionError).
Proof.
  split; [|split].
  - intros width. unfold Camera.__init__.
    destruct (Py.float_of_int width) as [w|e]; reflexivity.
  - intros height. unfold Camera.__init__.
    pose proof (no_columns_no_aspect height) as Haspect.
    destruct (Py.float_of_int 0) as [w|e]; cbn [bind] in *; [|reflexivity].
    destruct (Py.float_of_int height) as [h|e]; cbn [bind] in *; [|reflexivity].
    destruct (Py.div w h) as [aspect_ratio|e]; cbn [bind]; [|reflexivity].
    specialize (Haspect aspect_ratio eq_refl).
    destruct (Py.div fov 2) as [half_fov|e]; cbn [bind]; [|reflexivity].
    destruct (Py.tan _) as [tangent|e]; cbn [bind]; [|reflexivity].
    unfold Py.div at 1. rewrite Haspect. reflexivity.
  - intros width w Hw. unfold Camera.__init__. rewrite Hw. reflexivity.
Qed.

(** X11. A camera whose target is its own (finite) position is built
    without complaint, but sees nothing: its forward, right and up vectors
    are all [(0, 0, 0)], and every ray it generates for finite screen
    coordinates starts at the position with the direction [(0, 0, 0)]. *)
Theorem camera_at_its_target (position : Vector3.t) (fov : float) (width height : Z)
    (camera : Camera.t) :
  is_finite (Vector3.x position) = true ->
  is_finite (Vector3.y position) = true ->
  is_finite (Vector3.z position) = true ->
  Camera.__init__ position position fov width height = Ok camera ->
  Camera.forward camera = Vector3.mk 0 0 0 /\
  Camera.right camera = Vector3.mk 0 0 0 /\
  Camera.up camera = Vector3.mk 0 0 0 /\
  forall x y,
    is_finite ((x * 2 - 1) * Camera.screen_width camera / 2) = true ->
    is_finite ((1 - y * 2) * Camera.screen_height camera / 2) = true ->
    Camera.get_ray camera x y = Ok (Ray.mk position (Vector3.mk 0 0 0)).
Proof.
  intros Hx Hy Hz. unfold Camera.__init__.
  destruct (Py.float_of_int width) as [w|e]; cbn [bind]; [|discriminate].
  destruct (Py.float_of_int height) as [h|e]; cbn [bind]; [|discriminate].
  destruct (Py.div w h) as [aspect_ratio|e]; cbn [bind]; [|discriminate].
  destruct (Py.div fov 2) as [half_fov|e]; cbn [bind]; [|discriminate].
  destruct (Py.tan _) as [tangent|e]; cbn [bind]; [|discriminate].
  destruct (Py.div _ aspect_ratio) as [screen_height|e]; cbn [bind]; [|discriminate].
  rewrite (normalize_zero (Vector3.__sub__ position position)) by
    (cbn [Vector3.__sub__ Vector3.x Vector3.y Vector3.z]; apply sub_self_zero; assumption).
  cbn [bind].
  rewrite (normalize_zero (Vector3.cross (Vector3.mk 0 1 0) (Vector3.mk 0 0 0))) by reflexivity.
  cbn [bind].
  rewrite (length_zero (Vector3.mk 0 0 0)) by reflexivity. cbn [bind].
  change (0 <? 0.001) with true. cbv iota.
  rewrite (normalize_zero (Vector3.cross (Vector3.mk 0 0 1) (Vector3.mk 0 0 0))) by reflexivity.
  cbn [bind].
  rewrite (normalize_zero (Vector3.cross (Vector3.mk 0 0 0) (Vector3.mk 0 0 0))) by reflexivity.
  cbn [bind]. intros [= <-].
  cbn [Camera.forward Camera.right Camera.up Camera.screen_width Camera.screen_height].
  split; [reflexivity|]. split; [reflexivity|]. split; [reflexivity|].
  intros x y Hsx Hsy. unfold Camera.get_ray, Py.div.
  change (2 =? 0) with false. cbv iota.
  cbn [bind Camera.forward Camera.right Camera.up Camera.screen_width Camera.screen_height
       Camera.screen_distance Camera.position Vector3.__mul__ Vector3.x Vector3.y Vector3.z].
  rewrite normalize_zero; [reflexivity| | |];
    cbn [Vector3.__add__ Vector3.x Vector3.y Vector3.z];
    repeat apply add_zero; try reflexivity; apply mul_zero_finite; try reflexivity; assumption.
Qed.

End CameraFacts.

(** ** The exceptions that can leave the scan, the shader and the renderer *)

Section SignFacts.
Local Open Scope float_scope.

Lemma binary_round_aux_not_negative m e l :
  SFltb (binary_round_aux prec emax false m e l) (S754_zero false) = false.
Proof.
  unfold binary_round_aux.
  destruct (shr_fexp prec emax m e l) as [mrs' e'].
  destruct (shr_fexp prec emax _ e' loc_Exact) as [mrs'' e''].
  destruct (shr_m mrs'') as [|p|p]; try reflexivity.
  destruct (e'' <=? emax - prec)%Z; reflexivity.
Qed.

Lemma binary_normalize_not_negative m e :
  (0 <= m)%Z -> SFltb (binary_normalize prec emax m e false) (S754_zero false) = false.
Proof.
  intros Hm. destruct m as [|p|p]; cbn [binary_normalize]; [reflexivity| |lia].
  unfold binary_round. destruct (shl_align _ _ _) as [mz ez].
  apply binary_round_aux_not_negative.
Qed.

Lemma SFadd_not_negative a b :
  SFltb a (S754_zero false) = false -> SFltb b (S754_zero false) = false ->
  SFltb (SFadd prec emax a b) (S754_zero false) = false.
Proof.
  destruct a as [sa|sa| |sa ma ea], b as [sb|sb| |sb mb eb];
    try destruct sa; try destruct sb; cbn [SFadd]; try discriminate; try reflexivity; auto.
  intros _ _. apply binary_normalize_not_negative. cbn [cond_Zopp]. lia.
Qed.

Lemma add_not_negative (a b : float) :
  (a <? 0) = false -> (b <? 0) = false -> (a + b <? 0) = false.
Proof.
  rewrite !FloatAxioms.ltb_spec, add_spec. change (Prim2SF 0) with (S754_zero false).
  apply SFadd_not_negative.
Qed.

Lemma abs_not_negative (a : float) : (abs a <? 0) = false.
Proof.
  rewrite FloatAxioms.ltb_spec, abs_spec. change (Prim2SF 0) with (S754_zero false).
  destruct (Prim2SF a) as [s|s| |s m e]; reflexivity.
Qed.

Lemma square_not_negative (a : float) : (a * a <? 0) = false.
Proof.
  rewrite FloatAxioms.ltb_spec, mul_spec. change (Prim2SF 0) with (S754_zero false).
  destruct (Prim2SF a) as [s|s| |s m e]; cbn [SFmul]; try reflexivity;
    destruct s; try reflexivity; apply binary_round_aux_not_negative.
Qed.

Lemma nan_not_negative (a : float) : is_nan a = true -> (a <? 0) = false.
Proof.
  intros Hn. apply is_nan_spec in Hn. rewrite FloatAxioms.ltb_spec, Hn. reflexivity.
Qed.

End SignFacts.

Section FailureFacts.
Context `{Libm}.
Local Open Scope float_scope.

Lemma raises_only_bind {A B : Type} (allowed : list exn) (m : result A)
    (k : A -> result B) :
  raises_only allowed m = true -> (forall a, raises_only allowed (k a) = true) ->
  raises_only allowed (a <- m ;; k a) = true.
Proof. destruct m as [a|e]; cbn [bind raises_only]; auto. Qed.

Lemma raises_only_for_each {S A : Type} (allowed : list exn) (body : S -> A -> result S)
    (l : list A) :
  (forall s a, raises_only allowed (body s a) = true) ->
  forall s, raises_only allowed (for_each body l s) = true.
Proof.
  intros Hbody. induction l as [|a l IH]; intros s; cbn [for_each]; [reflexivity|].
  apply raises_only_bind; [apply Hbody|apply IH].
Qed.

Lemma max_zero_not_negative (a : float) : (Py.max a 0 <? 0) = false.
Proof. unfold Py.max. destruct (a <? 0) eqn:E; [reflexivity|exact E]. Qed.

(** A square is a float or an overflow; with powers that are not negative
    it is not negative either. *)
Lemma pow2_overflows (a : float) : raises_only [OverflowError] (Py.pow a 2) = true.
Proof.
  rewrite pow2_eq.
  destruct (is_nan a); [reflexivity|]. destruct (is_infinity a); [reflexivity|].
  destruct (a =? 0); [reflexivity|]. cbv zeta.
  destruct (_ =? 1); [reflexivity|]. destruct (is_infinity _); reflexivity.
Qed.

Lemma pow2_not_negative (a r : float) :
  powers_not_negative -> Py.pow a 2 = Ok r -> (r <? 0) = false.
Proof.
  intros Hpow. rewrite pow2_eq.
  destruct (is_nan a) eqn:Hn; [intros [= <-]; apply nan_not_negative, Hn|].
  destruct (is_infinity a); [intros [= <-]; apply abs_not_negative|].
  destruct (a =? 0); [intros [= <-]; reflexivity|]. cbv zeta.
  destruct (_ =? 1); [intros [= <-]; reflexivity|].
  destruct (is_infinity _); [discriminate|]. intros [= <-]. apply Hpow.
Qed.

Lemma length_arithmetic (v : Vector3.t) :
  raises_only [OverflowError; ValueError] (Vector3.length v) = true.
Proof.
  unfold Vector3.length.
  pose proof (pow2_overflows (Vector3.x v)) as Hx.
  destruct (Py.pow (Vector3.x v) 2) as [x2|[]]; try discriminate Hx; [|reflexivity].
  pose proof (pow2_overflows (Vector3.y v)) as Hy.
  destruct (Py.pow (Vector3.y v) 2) as [y2|[]]; try discriminate Hy; [|reflexivity].
  pose proof (pow2_overflows (Vector3.z v)) as Hz.
  destruct (Py.pow (Vector3.z v) 2) as [z2|[]]; try discriminate Hz; [|reflexivity].
  cbn [bind]. unfold Py.sqrt. cbv zeta. destruct (_ && _); reflexivity.
Qed.

Lemma length_overflows (v : Vector3.t) :
  powers_not_negative -> raises_only [OverflowError] (Vector3.length v) = true.
Proof.
  intros Hpow. unfold Vector3.length.
  pose proof (pow2_overflows (Vector3.x v)) as Hx.
  pose proof (pow2_not_negative (Vector3.x v)) as Px.
  destruct (Py.pow (Vector3.x v) 2) as [x2|e]; cbn [bind]; [|exact Hx].
  pose proof (pow2_overflows (Vector3.y v)) as Hy.
  pose proof (pow2_not_negative (Vector3.y v)) as Py.
  destruct (Py.pow (Vector3.y v) 2) as [y2|e]; cbn [bind]; [|exact Hy].
  pose proof (pow2_overflows (Vector3.z v)) as Hz.
  pose proof (pow2_not_negative (Vector3.z v)) as Pz.
  destruct (Py.pow (Vector3.z v) 2) as [z2|e]; cbn [bind]; [|exact Hz].
  rewrite sqrt_guarded; [reflexivity|].
  repeat apply add_not_negative; auto.
Qed.

(** What follows holds for every list of exceptions that has the two
    failures of the scan and those of [Vector3.length]. *)
Section Propagation.
Variable allowed : list exn.
Hypothesis division_allowed : existsb (exn_eqb ZeroDivisionError) allowed = true.
Hypothesis overflow_allowed : existsb (exn_eqb OverflowError) allowed = true.
Hypothesis length_allowed : forall v, raises_only allowed (Vector3.length v) = true.

Lemma div_raises (a b : float) : raises_only allowed (Py.div a b) = true.
Proof. unfold Py.div. destruct (b =? 0); [exact division_allowed|reflexivity]. Qed.

Lemma pow2_raises (a : float) : raises_only allowed (Py.pow a 2) = true.
Proof.
  pose proof (pow2_overflows a) as Ha.
  destruct (Py.pow a 2) as [r|[]]; try discriminate Ha; [reflexivity|exact overflow_allowed].
Qed.

(** A power of a base that is not negative is a float or an arithmetic
    failure; the complex results need a negative base. *)
Lemma pow_raises (iv iw : float) :
  (iv <? 0) = false -> raises_only allowed (Py.pow iv iw) = true.
Proof.
  intros Hiv. unfold Py.pow. rewrite Hiv. cbn [andb].
  repeat match goal with
         | |- raises_only _ (if ?c then _ else _) = true => destruct c
         | |- raises_only _ (let _ := _ in _) = true => cbv zeta
         end; cbn [raises_only]; auto.
Qed.

Lemma normalize_raises (v : Vector3.t) : raises_only allowed (Vector3.normalize v) = true.
Proof.
  pose proof (length_allowed v) as Hlen.
  destruct (Vector3.length v) as [len|e] eqn:E.
  - destruct (len =? 0) eqn:Hz.
    + rewrite (normalize_at_zero_length v len E Hz). reflexivity.
    + rewrite (normalize_away_from_zero v len E Hz). reflexivity.
  - unfold Vector3.normalize. rewrite E. exact Hlen.
Qed.

Lemma intersect_raises (obj : Sphere.t) (ray : Ray.t) :
  raises_only allowed (Sphere.intersect obj ray) = true.
Proof.
  unfold Sphere.intersect. cbv zeta.
  repeat (apply raises_only_bind; [apply pow2_raises|intros ?]).
  match goal with |- context [if ?d <? 0 then _ else _] => destruct (d <? 0) eqn:Hd end;
    [reflexivity|].
  rewrite (sqrt_guarded _ Hd). cbn [bind].
  repeat (apply raises_only_bind; [apply div_raises|intros ?]).
  destruct (0.001 <? _); [reflexivity|]. destruct (0.001 <? _); reflexivity.
Qed.

Lemma hit_raises (scene : Scene.t) (ray : Ray.t) :
  raises_only allowed (Scene.hit scene ray) = true.
Proof.
  unfold Scene.hit. apply raises_only_bind.
  - apply raises_only_for_each. intros st obj. rewrite hit_step_eq.
    apply raises_only_bind; [apply intersect_raises|].
    intros [t|]; [destruct (t <? fst st)|]; reflexivity.
  - intros [t [o|]]; cbn [snd fst]; [|reflexivity]. rewrite point_ok. reflexivity.
Qed.

Lemma light_step_raises (hit_point normal view_dir : Vector3.t) (obj : Sphere.t)
    (color : Vector3.t) (light : Light.t) :
  raises_only allowed
    (Shader.light_step Shader.vector_plus hit_point normal view_dir obj color light) = true.
Proof.
  unfold Shader.light_step. cbv zeta.
  apply raises_only_bind; [apply normalize_raises|intros light_dir].
  cbn [Vector3.__mul__ Vector3.reflect Vector3.__rmul__ bind].
  apply raises_only_bind; [apply pow_raises, max_zero_not_negative|].
  intros i_spec. reflexivity.
Qed.

Lemma local_color_raises (self : Ray.t) (scene : Scene.t) (hit_point : Vector3.t)
    (obj : Sphere.t) :
  raises_only allowed (Shader.local_color self scene hit_point obj) = true.
Proof.
  unfold Shader.local_color, Sphere.normal_vector. cbv zeta.
  apply raises_only_bind; [apply normalize_raises|intros normal].
  apply raises_only_bind; [apply normalize_raises|intros unit_dir].
  apply raises_only_bind; [|reflexivity].
  apply raises_only_for_each. intros color light. apply light_step_raises.
Qed.

Lemma shade_raises (self : Ray.t) (scene : Scene.t) (depth max_depth : Z)
    (recurse : Ray.t -> result Vector3.t) (h : option (Vector3.t * Sphere.t)) :
  (forall r, raises_only allowed (recurse r) = true) ->
  raises_only allowed (shade self scene depth max_depth recurse h) = true.
Proof.
  intros Hrec. unfold shade. destruct h as [[hit_point obj]|];
    [|rewrite background_sky; reflexivity].
  destruct (depth >=? max_depth)%Z; [rewrite background_sky; reflexivity|].
  apply raises_only_bind; [apply local_color_raises|intros lc].
  destruct (0 <? _); [|reflexivity].
  apply raises_only_bind; [reflexivity|intros ref_ray].
  apply raises_only_bind; [apply Hrec|intros ref_color].
  rewrite mix_color_blend. reflexivity.
Qed.

Lemma color_rec_raises (k : nat) :
  forall (self : Ray.t) (scene : Scene.t) (depth : Z) (n : nat),
    (3 - depth <= Z.of_nat k)%Z -> (k < n)%nat ->
    raises_only allowed
      (Shader.color_rec n self scene depth Shader.default_max_depth) = true.
Proof.
  induction k as [|k IH]; intros self scene depth n Hk Hn; (destruct n as [|n]; [lia|]);
    rewrite color_rec_step;
    (apply raises_only_bind; [apply hit_raises|intros h]).
  - rewrite shade_at_bound by (unfold Shader.default_max_depth; lia). reflexivity.
  - apply shade_raises. intros r. apply IH; lia.
Qed.

Lemma color_raises (self : Ray.t) (scene : Scene.t) (depth max_depth : Z) :
  raises_only allowed (Shader.color self scene depth max_depth) = true.
Proof.
  unfold Shader.color, Shader.frames.
  change (2 + Z.to_nat (2 - depth))%nat with (S (1 + Z.to_nat (2 - depth))).
  rewrite color_rec_step.
  apply raises_only_bind; [apply hit_raises|intros h].
  apply shade_raises. intros r. apply (color_rec_raises (Z.to_nat (2 - depth))); lia.
Qed.

Lemma float_of_int_raises (n : Z) : raises_only allowed (Py.float_of_int n) = true.
Proof.
  unfold Py.float_of_int. cbv zeta.
  destruct (is_infinity _); [exact overflow_allowed|reflexivity].
Qed.

Lemma get_ray_raises (camera : Camera.t) (x y : float) :
  raises_only allowed (Camera.get_ray camera x y) = true.
Proof.
  unfold Camera.get_ray.
  repeat (apply raises_only_bind; [apply div_raises|intros ?]).
  cbn [Vector3.__mul__ bind].
  apply raises_only_bind; [apply normalize_raises|intros ?]. reflexivity.
Qed.

Lemma sample_color_raises (camera : Camera.t) (scene : Scene.t)
    (width height x y sx sy : nat) :
  raises_only allowed (Renderer.sample_color camera scene width height x y sx sy) = true.
Proof.
  unfold Renderer.sample_color.
  apply raises_only_bind; [|intros uv].
  - unfold Renderer.sample_coordinates.
    repeat (apply raises_only_bind;
            [first [apply float_of_int_raises|apply div_raises]|intros ?]).
    reflexivity.
  - apply raises_only_bind; [apply get_ray_raises|intros ray]. apply color_raises.
Qed.

Lemma render_raises (camera : Camera.t) (scene : Scene.t) (width height : nat) :
  raises_only allowed (Renderer.render camera scene width height) = true.
Proof.
  pose proof (render_spec camera scene width height) as Hspec.
  destruct (Renderer.render camera scene width height) as [buf|e]; [reflexivity|].
  destruct Hspec as (x & y & _ & _ & Hpix).
  assert (Hr : raises_only allowed
                 (Renderer.render_pixel camera scene width height x y) = true).
  { rewrite render_pixel_eq.
    repeat (apply raises_only_bind; [apply sample_color_raises|intros ?]). reflexivity. }
  rewrite Hpix in Hr. exact Hr.
Qed.

End Propagation.

Lemma raises_only_weaken {A : Type} (allowed allowed' : list exn) (r : result A) :
  (forall e, existsb (exn_eqb e) allowed = true -> existsb (exn_eqb e) allowed' = true) ->
  raises_only allowed r = true -> raises_only allowed' r = true.
Proof. intros Hincl. destruct r as [a|e]; cbn [raises_only]; auto. Qed.

Lemma length_is_arithmetic (v : Vector3.t) :
  raises_only arithmetic (Vector3.length v) = true.
Proof.
  apply (raises_only_weaken [OverflowError; ValueError]); [|apply length_arithmetic].
  intros []; cbn; congruence.
Qed.

Lemma length_in_scan (v : Vector3.t) :
  powers_not_negative ->
  raises_only [ZeroDivisionError; OverflowError] (Vector3.length v) = true.
Proof.
  intros Hpow. apply (raises_only_weaken [OverflowError]); [|apply length_overflows, Hpow].
  intros []; cbn; congruence.
Qed.

Lemma camera_raises (position target : Vector3.t) (fov : float) (width height : Z) :
  raises_only arithmetic (Camera.__init__ position target fov width height) = true.
Proof.
  assert (Hnorm : forall v, raises_only arithmetic (Vector3.normalize v) = true).
  { intros v. apply normalize_raises. exact length_is_arithmetic. }
  unfold Camera.__init__. cbv zeta.
  apply raises_only_bind; [apply float_of_int_raises; reflexivity|intros w].
  apply raises_only_bind; [apply float_of_int_raises; reflexivity|intros h].
  apply raises_only_bind; [apply div_raises; reflexivity|intros aspect_ratio].
  apply raises_only_bind; [apply div_raises; reflexivity|intros half_fov].
  apply raises_only_bind; [|intros tangent].
  { unfold Py.tan. cbv zeta. destruct (_ && _); [reflexivity|].
    destruct (_ && _); reflexivity. }
  apply raises_only_bind; [apply div_raises; reflexivity|intros screen_height].
  apply raises_only_bind; [apply Hnorm|intros forward].
  apply raises_only_bind; [apply Hnorm|intros right0].
  apply raises_only_bind; [apply length_is_arithmetic|intros len].
  apply raises_only_bind; [destruct (len <? 0.001); [apply Hnorm|reflexivity]|intros right].
  apply raises_only_bind; [apply Hnorm|intros up]. reflexivity.
Qed.



(** X14. A shading call at [depth] nests at most
    [2 + max 0 (2 - depth)] calls, whatever bound is supplied to it: on any
    stack with room for that many frames the call gives the result it
    gives on an unbounded one, and that result is not a
    [RecursionError]. *)
Theorem color_stack_bound (self : Ray.t) (scene : Scene.t) (depth max_depth : Z) (n : nat) :
  (Shader.frames depth <= n)%nat ->
  Shader.color_rec n self scene depth max_depth = Shader.color self scene depth max_depth /\
  raises_only arithmetic (Shader.color_rec n self scene depth max_depth) = true.
Proof.
  intros Hn.
  assert (Hsame : Shader.color_rec n self scene depth max_depth =
                  Shader.color self scene depth max_depth);
    [|split; [exact Hsame|rewrite Hsame;
              apply color_raises; [reflexivity|reflexivity|exact length_is_arithmetic]]].
  unfold Shader.color. unfold Shader.frames in *.
  destruct n as [|n]; [lia|].
  change (2 + Z.to_nat (2 - depth))%nat with (S (1 + Z.to_nat (2 - depth))).
  rewrite !color_rec_step.
  destruct (Scene.hit scene self) as [h|e]; cbn [bind]; [|reflexivity].
  apply shade_ext. intros r.
  apply (default_stack (Z.to_nat (2 - depth))); lia.
Qed.

End FailureFacts.

(** ** Colours outside the unit interval *)

Section ChannelFacts.
Context `{Libm}.
Local Open Scope float_scope.

(** X16. What [Vector3.rgb] makes of a component that is not strictly
    between 0 and 1: each channel is converted on its own; a component that
    is not below 1 gives 255, and that includes a NaN, which is stored as
    full intensity rather than refused; a component below 1 that is not
    above 0 gives 0, a negative zero included. *)
Theorem rgb_saturates (v : Vector3.t) :
  Vector3.rgb v = (channel (Vector3.x v), channel (Vector3.y v), channel (Vector3.z v)) /\
  (forall c, (c <? 1) = false -> channel c = 255%Z) /\
  (forall c, is_nan c = true -> channel c = 255%Z) /\
  (forall c, (c <? 1) = true -> (0 <? c) = false -> channel c = 0%Z) /\
  channel (-0) = 0%Z /\ channel infinity = 255%Z /\ channel neg_infinity = 0%Z.
Proof.
  assert (Habove : forall c, (c <? 1) = false -> channel c = 255%Z).
  { intros c Hc. unfold channel, Py.max, Py.min. rewrite Hc. reflexivity. }
  split; [apply rgb_channels|]. split; [exact Habove|]. split; [|split].
  - intros c Hn. apply Habove. apply is_nan_spec in Hn.
    rewrite FloatAxioms.ltb_spec, Hn. reflexivity.
  - intros c H1 H0. unfold channel, Py.max, Py.min. rewrite H1, H0. reflexivity.
  - repeat split; reflexivity.
Qed.

End ChannelFacts.

(** ** The statements on concrete inputs *)

#[local] Existing Instance unit_libm.

Local Open Scope float_scope.


(** C2 on two spheres in line, the nearer listed second. *)
Lemma hit_nearest_witness :
  Forall2 (fun obj t => Sphere.intersect obj Sample.forward_ray = Ok t)
    (Scene.objects Sample.in_line) [Some 9; Some 4] /\
  exists p, Ray.point Sample.forward_ray 4 = Ok p /\
            Scene.hit Sample.in_line Sample.forward_ray = Ok (Some (p, Sample.ahead)).
Proof.
  assert (Hall : Forall2 (fun obj t => Sphere.intersect obj Sample.forward_ray = Ok t)
                   (Scene.objects Sample.in_line) [Some 9; Some 4]).
  { repeat constructor; vm_compute; reflexivity. }
  split; [exact Hall|].
  apply (proj2 (hit_nearest Sample.in_line Sample.forward_ray [Some 9; Some 4] Hall)
           Sample.further Sample.ahead 9 4 Sample.ahead 4 eq_refl eq_refl).
  right. split; [vm_compute; reflexivity|]. split; reflexivity.
Defined.

(** C2, counterexample: the only sphere has the valid result [+inf], which
    is the minimum over all valid results, and the scan reports no hit.  (The
    squares taken here are of 1 and -1, which the interpreter settles
    without the C library.) *)
Lemma hit_skips_infinite_parameter :
  Sphere.intersect Sample.remote Sample.remote_ray = Ok (Some infinity) /\
  Scene.hit (Scene.mk [] [Sample.remote]) Sample.remote_ray = Ok None.
Proof. split; vm_compute; reflexivity. Qed.

(** C3 at the head-on hit, lit from the origin. *)
Lemma local_illumination_witness :
  Scene.hit Sample.facing Sample.forward_ray = Ok (Some (Vector3.mk 0 0 4, Sample.ahead)) /\
  Shader.local_color Sample.forward_ray Sample.facing (Vector3.mk 0 0 4) Sample.ahead =
    Ok (Vector3.mk 0 0 (-1), Vector3.mk 2 1 1).
Proof.
  assert (Hhit : Scene.hit Sample.facing Sample.forward_ray =
                 Ok (Some (Vector3.mk 0 0 4, Sample.ahead))) by (vm_compute; reflexivity).
  split; [exact Hhit|].
  rewrite (proj1 (local_illumination Sample.forward_ray Sample.facing 0 3
                    (Vector3.mk 0 0 4) Sample.ahead Hhit eq_refl)).
  vm_compute; reflexivity.
Defined.

(** C4 on a ray that misses both spheres, and on the ray that hits the
    sphere ahead, at the bound. *)
Lemma background_base_case_witness :
  Scene.hit Sample.facing Sample.upward_ray = Ok None /\
  Shader.color Sample.upward_ray Sample.facing 0 3 = Ok (Vector3.mk 0.5 0.7 1) /\
  Scene.hit Sample.facing Sample.forward_ray = Ok (Some (Vector3.mk 0 0 4, Sample.ahead)) /\
  Shader.color Sample.forward_ray Sample.facing 3 3 = Ok (Vector3.mk 0.75 0.85 1).
Proof.
  assert (Hmiss : Scene.hit Sample.facing Sample.upward_ray = Ok None)
    by (vm_compute; reflexivity).
  assert (Hhit : Scene.hit Sample.facing Sample.forward_ray =
                 Ok (Some (Vector3.mk 0 0 4, Sample.ahead))) by (vm_compute; reflexivity).
  split; [exact Hmiss|]. split; [|split; [exact Hhit|]].
  - rewrite (proj1 (proj1 (background_base_case Sample.upward_ray Sample.facing 0 3)
                      None Hmiss (or_introl eq_refl))).
    vm_compute; reflexivity.
  - assert (Hbound : (3 <= 3)%Z) by lia.
    rewrite (proj1 (proj1 (background_base_case Sample.forward_ray Sample.facing 3 3)
                      _ Hhit (or_intror Hbound))).
    vm_compute; reflexivity.
Defined.

(** C4, the claim as worded at a ray of the scene where it fails: the ray
    without direction is shaded at depth 3 under the bound 3, so
    [depth >= max_depth] holds, yet the scan comes first, divides by zero
    in [intersect], and the shader raises instead of returning the
    background [(0.75, 0.85, 1)] of that ray. *)
Lemma background_lost_when_scan_raises :
  (3 >=? 3)%Z = true /\
  Scene.hit Sample.facing Sample.still_ray = Raise ZeroDivisionError /\
  Shader.color Sample.still_ray Sample.facing 3 3 = Raise ZeroDivisionError /\
  sky Sample.still_ray = Vector3.mk 0.75 0.85 1.
Proof. repeat split; vm_compute; reflexivity. Qed.

(** C5 at the head-on hit of the reflective sphere. *)
Lemma reflection_blend_witness :
  Scene.hit Sample.facing Sample.forward_ray = Ok (Some (Vector3.mk 0 0 4, Sample.ahead)) /\
  Shader.color Sample.forward_ray Sample.facing 0 3 = Ok (Vector3.mk 1.5 1.5 1).
Proof.
  assert (Hhit : Scene.hit Sample.facing Sample.forward_ray =
                 Ok (Some (Vector3.mk 0 0 4, Sample.ahead))) by (vm_compute; reflexivity).
  assert (Hlocal : Shader.local_color Sample.forward_ray Sample.facing (Vector3.mk 0 0 4)
                     Sample.ahead = Ok (Vector3.mk 0 0 (-1), Vector3.mk 2 1 1))
    by (vm_compute; reflexivity).
  split; [exact Hhit|].
  rewrite (proj1 (reflection_blend Sample.forward_ray Sample.facing 0 3 _ _ _ _
                    Hhit eq_refl Hlocal) eq_refl).
  vm_compute; reflexivity.
Defined.

(** C6, the code at the failing input: with [max_depth = 1] supplied at
    depth 0, the reflection ray is still shaded at depth 1: it hits the
    sphere behind, whose local colour [(1, 2, 1)] enters the result
    [(1.5, 1.5, 1)]; a bound of 1 enforced at depth 1 would have given the
    background of the reflection ray there, and [(1.375, 0.925, 1)]. *)
Lemma bound_dropped_in_recursion :
  Shader.color Sample.forward_ray Sample.facing 0 1 = Ok (Vector3.mk 1.5 1.5 1) /\
  Shader.reflection_ray Sample.forward_ray (Vector3.mk 0 0 4) (Vector3.mk 0 0 (-1)) =
    Ok Sample.bounce_ray /\
  Scene.hit Sample.facing Sample.bounce_ray = Ok (Some (Vector3.mk 0 0 (-4), Sample.behind)) /\
  Shader.local_color Sample.bounce_ray Sample.facing (Vector3.mk 0 0 (-4)) Sample.behind =
    Ok (Vector3.mk 0 0 1, Vector3.mk 1 2 1) /\
  blend (Vector3.mk 2 1 1) (Vector3.mk 1 2 1) 0.5 = Vector3.mk 1.5 1.5 1 /\
  Shader.color Sample.bounce_ray Sample.facing 1 1 = Ok (Vector3.mk 0.75 0.85 1) /\
  blend (Vector3.mk 2 1 1) (Vector3.mk 0.75 0.85 1) 0.5 = Vector3.mk 1.375 0.925 1.
Proof. repeat split; vm_compute; reflexivity. Qed.

(** C7 on a one-pixel image. *)
Lemma render_stores_averages_witness :
  Renderer.render Sample.camera (Scene.mk [Sample.lamp] [Sample.further]) 1 1 =
    Ok [[(0%Z, 120%Z, 0%Z)]] /\
  shaped [[(0%Z, 120%Z, 0%Z)]] 1 1 /\
  exists c00 c10 c01 c11,
    pixel_at [[(0%Z, 120%Z, 0%Z)]] 0 0 =
      Some (channel (Vector3.x (quarter (sum4 c00 c10 c01 c11))),
            channel (Vector3.y (quarter (sum4 c00 c10 c01 c11))),
            channel (Vector3.z (quarter (sum4 c00 c10 c01 c11)))).
Proof.
  assert (Hrun : Renderer.render Sample.camera (Scene.mk [Sample.lamp] [Sample.further]) 1 1 =
                 Ok [[(0%Z, 120%Z, 0%Z)]]) by (vm_compute; reflexivity).
  split; [exact Hrun|].
  destruct (proj1 (render_stores_averages Sample.camera _ 1 1) _ Hrun) as [Hshape Hpix].
  split; [exact Hshape|].
  destruct (Hpix 0%nat 0%nat ltac:(lia) ltac:(lia)) as (c00 & c10 & c01 & c11 & _ & _ & _ & _ & Hat).
  exists c00, c10, c01, c11. exact Hat.
Defined.

(** C8 with a [+] that refuses its operands: the first of two lights is
    dropped. *)
Lemma type_error_drops_light_witness :
  light_terms Sample.mirror (Vector3.mk 0 0 4) (Vector3.mk 0 0 (-1)) (Vector3.mk 0 0 (-1))
    Sample.lamp = Ok (Vector3.mk 1 0 0, Vector3.mk 1 1 1) /\
  Shader.accumulate Sample.refusing_plus (Vector3.mk 0 0 4) (Vector3.mk 0 0 (-1))
    (Vector3.mk 0 0 (-1)) Sample.ahead [Sample.lamp; Sample.lamp] (Vector3.mk 0 0 0) =
  Shader.accumulate Sample.refusing_plus (Vector3.mk 0 0 4) (Vector3.mk 0 0 (-1))
    (Vector3.mk 0 0 (-1)) Sample.ahead [Sample.lamp] (Vector3.mk 0 0 0).
Proof.
  assert (Hterms : light_terms Sample.mirror (Vector3.mk 0 0 4) (Vector3.mk 0 0 (-1))
                     (Vector3.mk 0 0 (-1)) Sample.lamp =
                   Ok (Vector3.mk 1 0 0, Vector3.mk 1 1 1)) by (vm_compute; reflexivity).
  split; [exact Hterms|].
  exact (proj2 (type_error_drops_light Sample.refusing_plus _ _ _ Sample.ahead
                  (Vector3.mk 0 0 0) Sample.lamp [Sample.lamp] _ _ Hterms eq_refl)).
Defined.

(** C9 on a negation: the operand stays, the result is a new object. *)
Lemma only_in_place_division_writes_witness :
  VectorObject.call Sample.store VectorObject.Neg 0%nat VectorObject.VNone =
    Ok (<[1%nat := Vector3.mk (-2) (-4) (-6)]> Sample.store, VectorObject.RObj 1%nat) /\
  preserves Sample.store (<[1%nat := Vector3.mk (-2) (-4) (-6)]> Sample.store)
    (VectorObject.RObj 1%nat).
Proof.
  assert (Hcall : VectorObject.call Sample.store VectorObject.Neg 0%nat VectorObject.VNone =
    Ok (<[1%nat := Vector3.mk (-2) (-4) (-6)]> Sample.store, VectorObject.RObj 1%nat))
    by (vm_compute; reflexivity).
  split; [exact Hcall|].
  exact (proj1 (only_in_place_division_writes _ _ _ _ _ _ Hcall) eq_refl).
Defined.

(** C9, counterexample: [v /= 2] on [v = (2, 4, 6)] changes the components
    of its operand [v] to [(1, 2, 3)]. *)
Lemma in_place_division_overwrites_receiver :
  Sample.store !! 0%nat = Some (Vector3.mk 2 4 6) /\
  VectorObject.call Sample.store VectorObject.ITrueDiv 0%nat (VectorObject.VNum 2) =
    Ok (<[0%nat := Vector3.mk 1 2 3]> Sample.store, VectorObject.RObj 0%nat) /\
  (<[0%nat := Vector3.mk 1 2 3]> Sample.store) !! 0%nat = Some (Vector3.mk 1 2 3).
Proof. repeat split; vm_compute; reflexivity. Qed.

(** C10 on a ray with the zero direction. *)
Lemma intersect_unguarded_division_witness :
  Py.pow (Sphere.radius Sample.ahead) 2 = Ok 1 /\
  Sphere.intersect Sample.ahead Sample.still_ray = Raise ZeroDivisionError.
Proof.
  assert (Hr : Py.pow (Sphere.radius Sample.ahead) 2 = Ok 1) by (vm_compute; reflexivity).
  split; [exact Hr|].
  destruct (proj2 (proj2 (intersect_unguarded_division Sample.ahead Sample.still_ray))
              eq_refl eq_refl eq_refl 1 Hr)
    as (d & _ & _ & _ & _ & Hraise).
  exact Hraise.
Defined.

(** C10, counterexample: the direction [(1e-200, 0, 0)] is not zero, yet
    [a] underflows to 0 and the division fails.  (The squares taken here are
    of 0 and 1, which the interpreter settles without the C library.) *)
Lemma short_direction_divides_by_zero :
  (Vector3.x (Ray.direction Sample.faint_ray) =? 0) = false /\
  Sphere.coeff_a Sample.faint_ray = 0 /\
  Sphere.discriminant Sample.ahead Sample.faint_ray = Ok 0 /\
  Sphere.intersect Sample.ahead Sample.faint_ray = Raise ZeroDivisionError.
Proof. repeat split; vm_compute; reflexivity. Qed.

(** ** Further statements on concrete inputs *)

(** X5 on the sphere ahead. *)
Lemma normal_at_centre_witness :
  Sphere.normal_vector Sample.ahead (Vector3.mk 0 0 5) = Ok (Vector3.mk 0 0 0).
Proof. apply (normal_at_centre Sample.ahead); reflexivity. Defined.

(** X8 on the ray that meets the reflective sphere head-on, at the depth
    the renderer uses: the reflection ray hits the sphere behind, and the
    result blends in the background of that ray, not the green of the
    sphere. *)
Lemma deep_reflection_is_sky_witness :
  Shader.color Sample.forward_ray Sample.facing 2 3 =
    (ref_ray <- Shader.reflection_ray Sample.forward_ray (Vector3.mk 0 0 4)
                  (Vector3.mk 0 0 (-1)) ;;
     _ <- Scene.hit Sample.facing ref_ray ;;
     Ok (blend (Vector3.mk 2 1 1) (sky ref_ray) 0.5)) /\
  Scene.hit Sample.facing Sample.bounce_ray = Ok (Some (Vector3.mk 0 0 (-4), Sample.behind)) /\
  Shader.color Sample.forward_ray Sample.facing 2 3 = Ok (Vector3.mk 1.375 0.925 1).
Proof.
  split; [|split; vm_compute; reflexivity].
  apply (deep_reflection_is_sky Sample.forward_ray Sample.facing 2 3 (Vector3.mk 0 0 4)
           Sample.ahead (Vector3.mk 0 0 (-1)) (Vector3.mk 2 1 1));
    try lia; vm_compute; reflexivity.
Defined.

(** X9 on the scene [facing] and its variant with a transparent, emitting
    sphere and a lamp seven times as strong. *)
Lemma unread_fields_do_not_shade_witness :
  same_appearance Sample.facing Sample.facing_glass /\
  Shader.color Sample.forward_ray Sample.facing 0 3 =
    Shader.color Sample.forward_ray Sample.facing_glass 0 3 /\
  Renderer.render Sample.camera Sample.facing 1 1 =
    Renderer.render Sample.camera Sample.facing_glass 1 1.
Proof.
  assert (Hsame : same_appearance Sample.facing Sample.facing_glass)
    by (split; repeat constructor).
  split; [exact Hsame|].
  destruct (unread_fields_do_not_shade Sample.facing Sample.facing_glass Hsame)
    as [Hcolor Hrender].
  split; [apply Hcolor|apply Hrender].
Defined.

(** X11 on a camera placed at [(1, 2, 3)] and aimed there. *)
Lemma camera_at_its_target_witness :
  exists camera,
    Camera.__init__ (Vector3.mk 1 2 3) (Vector3.mk 1 2 3) 75 4 3 = Ok camera /\
    Camera.forward camera = Vector3.mk 0 0 0 /\
    Camera.right camera = Vector3.mk 0 0 0 /\
    Camera.up camera = Vector3.mk 0 0 0 /\
    Camera.get_ray camera 0.25 0.75 = Ok (Ray.mk (Vector3.mk 1 2 3) (Vector3.mk 0 0 0)).
Proof.
  destruct (Camera.__init__ (Vector3.mk 1 2 3) (Vector3.mk 1 2 3) 75 4 3)
    as [camera|e] eqn:E; [|vm_compute in E; discriminate E].
  exists camera. split; [reflexivity|].
  destruct (camera_at_its_target (Vector3.mk 1 2 3) 75 4 3 camera eq_refl eq_refl eq_refl E)
    as (Hf & Hr & Hu & Hray).
  split; [exact Hf|]. split; [exact Hr|]. split; [exact Hu|].
  apply Hray; vm_compute in E; injection E as <-; vm_compute; reflexivity.
Defined.

(** The stand-in library squares by a multiplication, and a square is
    never negative. *)
Lemma unit_powers_not_negative : powers_not_negative.
Proof.
  intros a b. cbn [libm_pow unit_libm].
  destruct (b =? 2); [apply square_not_negative|reflexivity].
Qed.


(** X14 at depth 0, where four frames are needed, on a stack of nine. *)
Lemma color_stack_bound_witness :
  (Shader.frames 0 <= 9)%nat /\
  Shader.color_rec 9 Sample.forward_ray Sample.facing 0 1 =
    Shader.color Sample.forward_ray Sample.facing 0 1 /\
  raises_only arithmetic (Shader.color_rec 9 Sample.forward_ray Sample.facing 0 1) = true.
Proof.
  assert (Hroom : (Shader.frames 0 <= 9)%nat) by (vm_compute; lia).
  split; [exact Hroom|]. apply color_stack_bound, Hroom.
Defined.

(** X15 at depth 0: the bounds 1 and 100 give the same colour. *)
Lemma supplied_bound_only_at_top_witness :
  Shader.color Sample.forward_ray Sample.facing 0 1 =
  Shader.color Sample.forward_ray Sample.facing 0 100.
Proof. apply supplied_bound_only_at_top; lia. Defined.
